(** * notifier: forum crawl planning, deduplication, the cache helper, the
    SQLite driver and the remote configuration

    A shallow embedding of [notifier/newposts.py], of [try_cache], the
    query-file cache and [SqliteDriver] from [notifier/database/driver.py],
    and of [notifier/config/remote.py].

    Python values are modelled as the code uses them: ids are strings,
    [TypedDict]s and rows are finite maps from string keys ([gmap]), lists
    are lists, and [x in l] on a list is decidable membership.  Effects
    (logging, calls on the database, the feed parser and the wiki
    connection) and exceptions are threaded through a state-and-exception
    monad whose state survives a raise, as a Python side effect does. *)

From stdpp Require Import base strings list gmap.
From Stdlib Require Import Ascii.

Set Default Proof Using "Type".

(** ** Python exceptions and results *)

Record PyExn := mkExn { exn_type : string; exn_arg : string }.

Global Instance PyExn_eq_dec : EqDecision PyExn.
Proof. solve_decision. Defined.

Definition UnboundLocalError (name : string) : PyExn := mkExn "UnboundLocalError" name.
Definition KeyError (key : string) : PyExn := mkExn "KeyError" key.

Inductive Result (A : Type) : Type :=
  | Return (a : A)
  | Raise (e : PyExn).
Arguments Return {A} a.
Arguments Raise {A} e.

(** ** The monad: a computation transforms the state and returns or raises *)

Definition M (S A : Type) : Type := S → S * Result A.

Global Instance M_ret {S} : MRet (M S) := λ A a s, (s, Return a).

Global Instance M_bind {S} : MBind (M S) := λ A B f m s,
  match m s with
  | (s', Return a) => f a s'
  | (s', Raise e) => (s', Raise e)
  end.

Definition raise {S A} (e : PyExn) : M S A := λ s, (s, Raise e).

Definition modify {S} (f : S → S) : M S () := λ s, (f s, Return ()).

Definition gets {S A} (f : S → A) : M S A := λ s, (s, Return (f s)).

(** [try: body / except catch: handler] *)
Definition try_except {S A} (body : M S A) (catch : PyExn → bool)
    (handler : PyExn → M S A) : M S A := λ s,
  match body s with
  | (s', Return a) => (s', Return a)
  | (s', Raise e) => if catch e then handler e s' else (s', Raise e)
  end.

(** [d[key]] on a dict: [KeyError] when the key is absent. *)
Definition getitem {S V} (d : gmap string V) (key : string) : M S V :=
  match d !! key with
  | Some v => mret v
  | None => raise (KeyError key)
  end.

(** [for x in l: body x acc], the loop-carried locals being [acc]. *)
Fixpoint for_each {S A B} (body : B → A → M S B) (l : list A) (acc : B) : M S B :=
  match l with
  | [] => mret acc
  | x :: l' => acc' ← body acc x; for_each body l' acc'
  end.

(** ** [try_cache] (database/driver.py) *)

Module Driver.
Section try_cache.
(** [S] is the state the getter and the store act on, [V] the type of the
    cached value; [V]'s [!=] is decidable equality. *)
Context {S V : Type} `{EqDecision V}.
(** The class hierarchy of the running program: [issubclass sub sup]. *)
Variable issubclass : string → string → bool.

Definition Exception : string := "Exception".

(** [except catch:] with [catch] a tuple of classes. *)
Definition isinstance (e : PyExn) (classes : list string) : bool :=
  existsb (issubclass (exn_type e)) classes.

Definition try_cache (get : M S V) (store : V → M S ())
    (do_not_store : V) (catch : option (list string)) : M S () :=
  let catch := match catch with None => [Exception] | Some c => c end in
  let value := do_not_store in
  value ← try_except get (λ e, isinstance e catch) (λ _, mret value);
  if bool_decide (value ≠ do_not_store) then store value else mret ().

(** Whether [except catch:] of [try_cache] handles [e]. *)
Definition caught (catch : option (list string)) (e : PyExn) : bool :=
  isinstance e (default [Exception] catch).


End try_cache.
End Driver.

(** ** [list.sort(key=...)] with a boolean key

    Python's [list.sort] is a stable sort; it is a builtin, so it is
    embedded as the stable insertion sort on the key order [False < True].
    [stable_sort_unique] below shows that every stable sort on such a key
    returns the same list. *)

Fixpoint insert_by_key {A} (key : A → bool) (x : A) (l : list A) : list A :=
  match l with
  | [] => [x]
  | y :: l' =>
      if implb (key x) (key y) then x :: y :: l'
      else y :: insert_by_key key x l'
  end.

Definition list_sort {A} (key : A → bool) (l : list A) : list A :=
  foldr (insert_by_key key) [] l.

(** ** newposts.py *)

Module NewPosts.

Inductive Level := DEBUG | INFO | ERROR.

Global Instance Level_eq_dec : EqDecision Level.
Proof. solve_decision. Defined.

(** Raw feed entries [(thread_id, post_id)] and the pages to crawl
    [(thread_id, post_id or None)]. *)
Definition Entry : Type := string * string.
Definition Page : Type := string * option string.

(** Calls on the external collaborators that have an effect or cost: the
    feed parser, the wiki connection and the two database writes.  Database
    reads ([find_new_posts], [find_new_threads], [get_supported_wikis]) are
    answered from the database state and leave no trace. *)
Inductive Call :=
  | FeedparserParse (url : string)
  | ConnectionThread (wiki_id thread_id : string) (post_id : option string)
  | StoreThread (wiki_id : string) (category : string * string)
      (thread : string * string * string * string)
  | StorePost (post : gmap string string).

Global Instance Call_eq_dec : EqDecision Call.
Proof. solve_decision. Defined.

(** The methods of [BaseDatabaseDriver] that newposts.py calls; the driver
    itself is outside this module, so it is an interface here. *)
Class BaseDatabaseDriver (DB : Type) := {
  get_supported_wikis : DB → list (gmap string string);
  find_new_posts : DB → list string → list string;
  find_new_threads : DB → list string → list string;
  store_thread : string → string * string →
                 string * string * string * string → DB → DB;
  store_post : gmap string string → DB → DB;
}.

Record World (DB : Type) := mkWorld {
  db : DB;
  calls : list Call;
  log : list (Level * string);
}.
Arguments mkWorld {DB} db calls log.
Arguments db {DB} w.
Arguments calls {DB} w.
Arguments log {DB} w.

(** The two lists local to one run of [fetch_posts_with_context]. *)
Record SeenState := mkSeen {
  posts_already_seen : list string;
  full_threads_already_seen : list string;
}.

(** What iterating a generator gives: the items yielded, then either
    exhaustion ([None]) or an exception raised by the generator. *)
Definition Stream : Type := list (gmap string string) * option PyExn.

Definition new_posts_rss (wiki_id : string) : string :=
  "http://" +:+ wiki_id +:+ ".wikidot.com/feed/forum/posts.xml".

(** Line 40: [[post for post in new_posts if post[1] not in new_post_ids]] *)
Definition remove_recorded (new_post_ids : list string) (new_posts : list Entry)
    : list Entry :=
  filter (λ post, post.2 ∉ new_post_ids) new_posts.

(** Lines 49-52: the comprehension, before sorting. *)
Definition pages_of_posts (new_thread_ids : list string) (new_posts : list Entry)
    : list Page :=
  (λ '(thread_id, post_id),
     (thread_id,
      if bool_decide (thread_id ∈ new_thread_ids) then None else Some post_id))
  <$> new_posts.

(** [lambda page: page[1] is not None] *)
Definition has_post_id (page : Page) : bool := bool_decide (page.2 ≠ None).

(** Lines 49-55. *)
Definition threads_pages_to_get (new_thread_ids : list string)
    (new_posts : list Entry) : list Page :=
  list_sort has_post_id (pages_of_posts new_thread_ids new_posts).

(** Line 66: [post_id is None and thread_id in full_threads_already_seen] *)
Definition thread_already_downloaded (seen : SeenState) (page : Page) : bool :=
  bool_decide (page.2 = None)
  && bool_decide (page.1 ∈ full_threads_already_seen seen).

(** Line 78: [post_id is not None and post_id in posts_already_seen] *)
Definition post_already_seen (seen : SeenState) (page : Page) : bool :=
  match page.2 with
  | Some post_id => bool_decide (post_id ∈ posts_already_seen seen)
  | None => false
  end.

(** The loop reaches [continue] before any download exactly when one of the
    two guards holds. *)
Definition should_skip (page : Page) (seen : SeenState) : bool :=
  thread_already_downloaded seen page || post_already_seen seen page.

(** The planned pages that ask for a whole thread, and those that ask for
    the page of one post. *)
Definition full_threads (pages : list Page) : list Page :=
  filter (λ page, page.2 = None) pages.

Definition single_pages (pages : list Page) : list Page :=
  filter (λ page, is_Some page.2) pages.

(** The remote fetches and the feed retrievals among a list of calls, in
    order. *)
Definition fetched_pages (cs : list Call) : list (string * Page) :=
  omap (λ c, match c with
             | ConnectionThread wiki_id thread_id post_id =>
                 Some (wiki_id, (thread_id, post_id))
             | _ => None
             end) cs.

Definition parsed_feeds (cs : list Call) : list string :=
  omap (λ c, match c with FeedparserParse url => Some url | _ => None end) cs.

Section newposts.
Context {DB : Type} `{BaseDatabaseDriver DB}.
(** The class hierarchy of the running program. *)
Variable issubclass : string → string → bool.
(** [feedparser.parse]: the parsed feed, a dict whose ["entries"] is a
    list of entries, or an exception. *)
Variable feedparser_parse :
  string → Result (gmap string (list (gmap string string))).
(** [notifier.config.user.parse_thread_url] *)
Variable parse_thread_url : string → Result Entry.
(** [Connection.thread(wiki_id, thread_id, post_id)] *)
Variable connection_thread : string → string → option string → Stream.

Definition logger (level : Level) (msg : string) : M (World DB) () :=
  modify (λ w, mkWorld (db w) (calls w) (log w ++ [(level, msg)])).

Definition call (c : Call) : M (World DB) () :=
  modify (λ w, mkWorld (db w) (calls w ++ [c]) (log w)).

Definition lift_result {A} (r : Result A) : M (World DB) A := λ w, (w, r).

Definition database_store_thread (wiki_id : string) (category : string * string)
    (thread : string * string * string * string) : M (World DB) () :=
  call (StoreThread wiki_id category thread);;
  modify (λ w, mkWorld (store_thread wiki_id category thread (db w))
                       (calls w) (log w)).

Definition database_store_post (post : gmap string string) : M (World DB) () :=
  call (StorePost post);;
  modify (λ w, mkWorld (store_post post (db w)) (calls w) (log w)).

(** Lines 169-184. [feed] is a local that stays unbound ([None]) when the
    [except] branch runs; reading an unbound local raises
    [UnboundLocalError]. *)
Definition fetch_new_posts_rss (wiki_id : string) : M (World DB) (list Entry) :=
  let rss_url := new_posts_rss wiki_id in
  feed ← try_except
    (call (FeedparserParse rss_url);;
     feed ← lift_result (feedparser_parse rss_url);
     mret (Some feed))
    (λ error, issubclass (exn_type error) "Exception")
    (λ error, logger ERROR "Could not parse RSS feed %s";; mret None);
  feed ← match feed with
         | Some feed => mret feed
         | None => raise (UnboundLocalError "feed")
         end;
  entries ← getitem feed "entries";
  for_each (λ acc entry,
              id ← getitem entry "id";
              parsed ← lift_result (parse_thread_url id);
              mret (acc ++ [parsed]))
           entries [].

(** Lines 95-124: the body of the inner loop, for the item at
    [post_index]; the loop-carried local is [posts_already_seen]. *)
Definition store_item (wiki_id thread_id : string) (post_index : nat)
    (thread_or_post : gmap string string) (posts_already_seen : list string)
    : M (World DB) (list string) :=
  if bool_decide (post_index = 0) then
    let thread_meta := thread_or_post in
    logger DEBUG "Storing metadata for thread %s";;
    category_id ← getitem thread_meta "category_id";
    category_name ← getitem thread_meta "category_name";
    title ← getitem thread_meta "title";
    creator_username ← getitem thread_meta "creator_username";
    created_timestamp ← getitem thread_meta "created_timestamp";
    database_store_thread wiki_id (category_id, category_name)
      (thread_id, title, creator_username, created_timestamp);;
    mret posts_already_seen
  else
    let post := thread_or_post in
    database_store_post post;;
    id ← getitem post "id";
    mret (posts_already_seen ++ [id]).

(** [for post_index, thread_or_post in enumerate(items)] *)
Fixpoint store_items (wiki_id thread_id : string) (post_index : nat)
    (items : list (gmap string string)) (posts_already_seen : list string)
    : M (World DB) (list string) :=
  match items with
  | [] => mret posts_already_seen
  | thread_or_post :: items' =>
      posts_already_seen ←
        store_item wiki_id thread_id post_index thread_or_post
                   posts_already_seen;
      store_items wiki_id thread_id (S post_index) items' posts_already_seen
  end.

(** Lines 65-151: the body of the outer loop for one page. *)
Definition download_page (wiki_id : string) (seen : SeenState) (page : Page)
    : M (World DB) SeenState :=
  let '(thread_id, post_id) := page in
  if thread_already_downloaded seen page then
    logger DEBUG "Skipping download of thread %s";; mret seen
  else if post_already_seen seen page then
    logger DEBUG "Skipping download of post %s";; mret seen
  else
    logger DEBUG "Downloading thread %s";;
    call (ConnectionThread wiki_id thread_id post_id);;
    let '(items, outcome) := connection_thread wiki_id thread_id post_id in
    posts_already_seen ←
      store_items wiki_id thread_id 0 items (posts_already_seen seen);
    match outcome with Some error => raise error | None => mret () end;;
    match post_id with
    | None =>
        let full_threads_already_seen :=
          full_threads_already_seen seen ++ [thread_id] in
        logger DEBUG "Downloaded thread %s";;
        mret (mkSeen posts_already_seen full_threads_already_seen)
    | Some _ =>
        logger DEBUG "Downloaded thread page containing post %s";;
        mret (mkSeen posts_already_seen (full_threads_already_seen seen))
    end.

(** Lines 65-151: the outer loop. *)
Definition download_pages (wiki_id : string) (pages : list Page)
    (seen : SeenState) : M (World DB) SeenState :=
  for_each (download_page wiki_id) pages seen.

(** Lines 25-151. *)
Definition fetch_posts_with_context (wiki_id : string) : M (World DB) () :=
  new_posts ← fetch_new_posts_rss wiki_id;
  logger DEBUG "Found new posts in RSS %s";;
  new_post_ids ← gets (λ w, find_new_posts (db w) (new_posts.*2));
  let new_posts := remove_recorded new_post_ids new_posts in
  new_thread_ids ← gets (λ w, find_new_threads (db w) (new_posts.*1));
  let threads_pages_to_get := threads_pages_to_get new_thread_ids new_posts in
  let seen := mkSeen [] [] in
  logger DEBUG "Found new threads to download %s";;
  download_pages wiki_id threads_pages_to_get seen;;
  mret ().

(** Lines 18-22. *)
Definition get_new_posts : M (World DB) () :=
  wikis ← gets (λ w, get_supported_wikis (db w));
  for_each (λ _ wiki,
              id ← getitem wiki "id";
              logger INFO "Getting new posts %s";;
              fetch_posts_with_context id)
           wikis ().

(** Lines 21-22: the body of the loop of [get_new_posts] for the wiki
    whose id is [id]. *)
Definition wiki_pass (id : string) : M (World DB) () :=
  logger INFO "Getting new posts %s";;
  fetch_posts_with_context id.
End newposts.
(** *** [fetch_post_context] *)

(** [str.lstrip(chars)]: drop the leading characters that occur in
    [chars]. *)
Fixpoint lstrip (chars : list Ascii.ascii) (s : string) : string :=
  match s with
  | EmptyString => EmptyString
  | String c s' => if bool_decide (c ∈ chars) then lstrip chars s' else s
  end.

(** The characters [fetch_post_context] strips: [thread_id.lstrip("t-")]. *)
Definition thread_prefix_chars : list Ascii.ascii := String.list_ascii_of_string "t-".

Section post_context.
Context {S R : Type}.
(** [Connection.paginated_module(wiki_id, module_name, index_key=...,
    starting_index=..., t=...)] *)
Variable paginated_module : string → string → string → nat → string → M S R.

(** Lines 154-166. The value of the call is dropped: the function returns
    [None]. *)
Definition fetch_post_context (wiki_id thread_id : string) : M S () :=
  paginated_module wiki_id "forum/ForumViewThreadModule" "pageNo" 1
    (lstrip (String.list_ascii_of_string "t-") thread_id);;
  mret ().
End post_context.

(** *** Vocabulary of the statements about the executor *)

(** A dict has the keys of [RawThreadMeta] that line 109 reads; a dict has
    the key of [RawPost] that line 124 reads. *)
Definition is_thread_meta (d : gmap string string) : bool :=
  forallb (λ key, bool_decide (is_Some (d !! key)))
    ["category_id"; "category_name"; "title"; "creator_username";
     "created_timestamp"].

Definition is_post (d : gmap string string) : bool :=
  bool_decide (is_Some (d !! "id")).

(** The items of a stream are typed as [Connection.thread] declares them:
    a [RawThreadMeta] first, [RawPost]s after it. *)
Definition well_typed (items : list (gmap string string)) : bool :=
  match items with
  | [] => true
  | thread_meta :: posts => is_thread_meta thread_meta && forallb is_post posts
  end.

Definition post_ids (posts : list (gmap string string)) : list string :=
  omap (λ post, post !! "id") posts.

Definition field (d : gmap string string) (key : string) : string :=
  default "" (d !! key).

(** The arguments line 109 passes to [store_thread] for [thread_meta]. *)
Definition thread_category (thread_meta : gmap string string) : string * string :=
  (field thread_meta "category_id", field thread_meta "category_name").

Definition thread_summary (thread_id : string) (thread_meta : gmap string string)
    : string * string * string * string :=
  (thread_id, field thread_meta "title", field thread_meta "creator_username",
   field thread_meta "created_timestamp").

(** The database writes for the items of one stream: the first item through
    [store_thread], every later item through [store_post]. *)
Definition store_calls (wiki_id thread_id : string)
    (items : list (gmap string string)) : list Call :=
  match items with
  | [] => []
  | thread_meta :: posts =>
      StoreThread wiki_id (thread_category thread_meta)
                  (thread_summary thread_id thread_meta)
      :: (StorePost <$> posts)
  end.

Definition stored `{BaseDatabaseDriver DB} (wiki_id thread_id : string)
    (items : list (gmap string string)) (d : DB) : DB :=
  match items with
  | [] => d
  | thread_meta :: posts =>
      foldl (λ d post, store_post post d)
            (store_thread wiki_id (thread_category thread_meta)
                          (thread_summary thread_id thread_meta) d)
            posts
  end.

Definition store_log (items : list (gmap string string)) : list (Level * string) :=
  match items with
  | [] => []
  | _ :: _ => [(DEBUG, "Storing metadata for thread %s")]
  end.

(** A computation that makes no remote fetch and retrieves no feed. *)
Definition quiet {DB A} (m : M (World DB) A) : Prop :=
  ∀ w, fetched_pages (calls (m w).1) = fetched_pages (calls w)
       ∧ parsed_feeds (calls (m w).1) = parsed_feeds (calls w).

(** Running one pass per id, in that order, until a pass raises: [k]
    passes are started; the outcome is [Return] after the last id when
    none raised, and otherwise the state and the error of the pass that
    raised, the ids after it getting no pass. *)
Inductive runs_passes {St} (pass : string → M St ()) :
    list string → St → nat → St * Result () → Prop :=
  | runs_passes_nil s : runs_passes pass [] s 0 (s, Return ())
  | runs_passes_return id ids s s1 k outcome :
      pass id s = (s1, Return ()) →
      runs_passes pass ids s1 k outcome →
      runs_passes pass (id :: ids) s (S k) outcome
  | runs_passes_raise id ids s s1 error :
      pass id s = (s1, Raise error) →
      runs_passes pass (id :: ids) s 1 (s1, Raise error).
End NewPosts.

(** ** The query-file cache and [SqliteDriver] (database/driver.py) *)

Module Sqlite.

(** [name.split(".")[0]]: the part of a file name before its first dot. *)
Fixpoint before_dot (s : string) : string :=
  match s with
  | EmptyString => EmptyString
  | String c s' =>
      if bool_decide (c = "."%char) then EmptyString
      else String c (before_dot s')
  end.

(** [s.endswith(suffix)] *)
Fixpoint endswith (s suffix : string) : bool :=
  bool_decide (s = suffix)
  || match s with
     | EmptyString => false
     | String _ s' => endswith s' suffix
     end.

(** Values bound to SQL parameters and found in rows. *)
Inductive SqlValue :=
  | SqlText (s : string)
  | SqlInt (n : Z)
  | SqlNull.

Global Instance SqlValue_eq_dec : EqDecision SqlValue.
Proof. solve_decision. Defined.

(** A [sqlite3.Row], by column name; a cursor, as the rows [fetchall]
    gives. *)
Definition Row : Type := gmap string SqlValue.
Definition Cursor : Type := list Row.

(** An entry of [query_cache]: [{"script": ..., "query": ...}]. *)
Record CachedQuery := mkQuery { script : bool; query : string }.

Global Instance CachedQuery_eq_dec : EqDecision CachedQuery.
Proof. solve_decision. Defined.

(** Calls on the [sqlite3] connection. *)
Inductive SqlCall :=
  | Execute (sql : string) (params : gmap string SqlValue)
  | ExecuteScript (sql : string)
  | Commit.

Global Instance SqlCall_eq_dec : EqDecision SqlCall.
Proof. solve_decision. Defined.

(** The methods of [sqlite3.Connection] the driver calls. *)
Class Connection (Conn : Type) := {
  sqlite_execute : string → gmap string SqlValue → Conn → Conn * Result Cursor;
  sqlite_executescript : string → Conn → Conn * Result Cursor;
  sqlite_commit : Conn → Conn * Result ();
}.

(** The driver object: [self.conn], [self.query_cache], and the calls made
    on the connection so far. *)
Record SqliteDriver (Conn : Type) := mkDriver {
  conn : Conn;
  query_cache : gmap string CachedQuery;
  sql_calls : list SqlCall;
}.
Arguments mkDriver {Conn} conn query_cache sql_calls.
Arguments conn {Conn} _.
Arguments query_cache {Conn} _.
Arguments sql_calls {Conn} _.

(** [SupportedSiteConfig], as [store_supported_site] reads it. *)
Record SupportedSiteConfig := mkSite { secure : Z; alts : list string }.

(** [Subscription], as [store_manual_sub] reads it; [post_id] may be
    [None]. *)
Record Subscription := mkSubscription {
  thread_id : string;
  post_id : option string;
  sub : Z;
}.

Definition ValueError (msg : string) : PyExn := mkExn "ValueError" msg.
Definition IndexError (msg : string) : PyExn := mkExn "IndexError" msg.

Section driver.
Context {Conn : Type} `{Connection Conn}.
(** [builtin_queries_dir.iterdir()]: the files of the queries directory, as
    (name, content), in the order the directory lists them. *)
Variable builtin_queries_dir : list (string * string).

Definition conn_execute (sql : string) (params : gmap string SqlValue)
    : M (SqliteDriver Conn) Cursor := λ d,
  let '(c, r) := sqlite_execute sql params (conn d) in
  (mkDriver c (query_cache d) (sql_calls d ++ [Execute sql params]), r).

Definition conn_executescript (sql : string) : M (SqliteDriver Conn) Cursor := λ d,
  let '(c, r) := sqlite_executescript sql (conn d) in
  (mkDriver c (query_cache d) (sql_calls d ++ [ExecuteScript sql]), r).

Definition conn_commit : M (SqliteDriver Conn) () := λ d,
  let '(c, r) := sqlite_commit (conn d) in
  (mkDriver c (query_cache d) (sql_calls d ++ [Commit]), r).

(** Lines 108-111. *)
Definition clear_query_file_cache : M (SqliteDriver Conn) () :=
  modify (λ d, mkDriver (conn d) ∅ (sql_calls d)).

(** Lines 113-129. [next(...)] over the directory takes the first file
    whose name before the first dot is the query name; [StopIteration]
    becomes [ValueError]. *)
Definition read_query_file (query_name : string) : M (SqliteDriver Conn) () :=
  match list_find (λ path, before_dot path.1 = query_name) builtin_queries_dir with
  | None => raise (ValueError ("Query " +:+ query_name +:+ " does not exist"))
  | Some (_, (name, content)) =>
      modify (λ d, mkDriver (conn d)
                     (<[query_name := mkQuery (endswith name ".script.sql") content]>
                        (query_cache d))
                     (sql_calls d))
  end.

(** Lines 131-151. *)
Definition execute_named (query_name : string)
    (params : option (gmap string SqlValue)) : M (SqliteDriver Conn) Cursor :=
  not_cached ← gets (λ d, bool_decide (query_cache d !! query_name = None));
  (if (not_cached : bool) then read_query_file query_name else mret ());;
  cache ← gets query_cache;
  entry ← getitem cache query_name;
  if script (entry : CachedQuery) then
    match params with
    | Some _ => raise (ValueError "Script does not accept params")
    | None => conn_executescript (query entry)
    end
  else
    conn_execute (query entry) (default ∅ params).

(** Lines 143-151: what [execute_named] does with the cached entry. *)
Definition run_cached (entry : CachedQuery) (params : option (gmap string SqlValue))
    : M (SqliteDriver Conn) Cursor :=
  if script entry then
    match params with
    | Some _ => raise (ValueError "Script does not accept params")
    | None => conn_executescript (query entry)
    end
  else conn_execute (query entry) (default ∅ params).

(** [row["id"]] on a [sqlite3.Row]. *)
Definition row_getitem (row : Row) (column : string) : M (SqliteDriver Conn) SqlValue :=
  match row !! column with
  | Some v => mret v
  | None => raise (IndexError "No item with that key")
  end.

(** Lines 165-185. The rows are what [fetchall] gives; the result is the
    dict's two values, [thread_posts] then [post_replies]. *)
Definition get_new_posts_for_user (user_id : string) (search_timestamp : Z)
    : M (SqliteDriver Conn) (list Row * list Row) :=
  let params : gmap string SqlValue :=
    {[ "user_id" := SqlText user_id;
       "search_timestamp" := SqlInt search_timestamp ]} in
  thread_posts ← execute_named "get_posts_in_subscribed_threads" (Some params);
  post_replies ← execute_named "get_replies_to_subscribed_posts" (Some params);
  post_replies_ids ←
    for_each (λ ids post, id ← row_getitem post "id"; mret (ids ++ [id]))
             post_replies [];
  thread_posts ←
    for_each (λ kept thread_post,
                id ← row_getitem thread_post "id";
                mret (if bool_decide (id ∉ post_replies_ids)
                      then kept ++ [thread_post] else kept))
             thread_posts [];
  mret (thread_posts, post_replies).

(** Lines 192-203. *)
Definition store_manual_sub (user_id : string) (subscription : Subscription)
    : M (SqliteDriver Conn) () :=
  execute_named "store_manual_sub"
    (Some {[ "user_id" := SqlText user_id;
             "thread_id" := SqlText (thread_id subscription);
             "post_id" := from_option SqlText SqlNull (post_id subscription);
             "sub" := SqlInt (sub subscription) ]});;
  mret ().

(** Lines 205-221. [sites.items()] in the dict's order. *)
Definition store_supported_site (sites : list (string * SupportedSiteConfig))
    : M (SqliteDriver Conn) () :=
  execute_named "remove_all_wikis" None;;
  for_each (λ _ '(wiki_id, wiki),
              execute_named "add_wiki"
                (Some {[ "wiki_id" := SqlText wiki_id;
                         "wiki_secure" := SqlInt (secure wiki) ]});;
              for_each (λ _ alt,
                          execute_named "add_wiki_alias"
                            (Some {[ "wiki_id" := SqlText wiki_id;
                                     "alias" := SqlText alt ]});;
                          mret ())
                       (alts wiki) ())
           sites ();;
  conn_commit.

(** Running named statements in order until one raises. *)
Definition run_statements
    (statements : list (string * option (gmap string SqlValue)))
    : M (SqliteDriver Conn) () :=
  for_each (λ _ '(query_name, params), execute_named query_name params;; mret ())
           statements ().
End driver.

(** The statements [store_supported_site] executes before it commits, in
    order: [remove_all_wikis], then for each site [add_wiki] followed by
    one [add_wiki_alias] per alias. *)
Definition site_statements (sites : list (string * SupportedSiteConfig))
    : list (string * option (gmap string SqlValue)) :=
  ("remove_all_wikis", None)
  :: flat_map (λ '(wiki_id, wiki),
                 ("add_wiki",
                  Some {[ "wiki_id" := SqlText wiki_id;
                          "wiki_secure" := SqlInt (secure wiki) ]})
                 :: ((λ alt, ("add_wiki_alias",
                              Some {[ "wiki_id" := SqlText wiki_id;
                                      "alias" := SqlText alt ]}))
                     <$> alts wiki))
              sites.

(** A name with a dot in it, and the number of its dots. *)
Definition has_dot (s : string) : Prop :=
  "."%char ∈ String.list_ascii_of_string s.

Fixpoint count_dots (s : string) : nat :=
  match s with
  | EmptyString => 0
  | String c s' => (if bool_decide (c = "."%char) then 1 else 0) + count_dots s'
  end.

(** A computation that never commits: the calls it adds to the connection
    are statements only. *)
Definition statements_only {Conn A} (m : M (SqliteDriver Conn) A) : Prop :=
  ∀ d, ∃ stmts, sql_calls (m d).1 = sql_calls d ++ stmts ∧ Commit ∉ stmts.
End Sqlite.

(** ** The remote configuration (config/remote.py) *)

Module Remote.

Definition AssertionError : PyExn := mkExn "AssertionError" "".
Definition StopIteration : PyExn := mkExn "StopIteration" "".

Definition newline : Ascii.ascii := Ascii.ascii_of_nat 10.
Definition double_quote : string := String (Ascii.ascii_of_nat 34) "".

(** Lines 20-24. *)
Definition wiki_config_listpages_body : string :=
  String newline "id = " +:+ double_quote +:+ "%%form_data{id}%%" +:+ double_quote
  +:+ String newline "name = " +:+ double_quote +:+ double_quote +:+ double_quote
  +:+ "%%title%%" +:+ double_quote +:+ double_quote +:+ double_quote
  +:+ " # Vulnerability if titles are editable publicly"
  +:+ String newline "secure = %%form_data{secure}%%"
  +:+ String newline "".

(** [s.split("\n")]; the result is never empty. *)
Fixpoint split_lines (s : string) : list string :=
  match s with
  | EmptyString => [EmptyString]
  | String c s' =>
      if bool_decide (c = newline) then EmptyString :: split_lines s'
      else match split_lines s' with
           | line :: lines => String c line :: lines
           | [] => [String c EmptyString]
           end
  end.

(** What the module does with the values [tomlkit] gives it:
    [isinstance(item, list)], iterating a list item, [key in item] (which
    raises for an item that is no container) and [item == n] for an
    integer [n]. *)
Class TomlItem (Item : Type) := {
  isinstance_list : Item → bool;
  list_items : Item → list Item;
  contains : string → Item → Result bool;
  eq_int : Item → Z → bool;
}.

(** A parsed document or a plain dict, as its items in order; keys are
    distinct.  It is a [dict], so [isinstance(config, dict)] holds, and it
    equals [{}] exactly when it has no item. *)
Definition TomlDocument (Item : Type) : Type := list (string * Item).

(** Calls on the collaborators of the module: [requests], the wiki
    connection, the module's logger and the database. *)
Inductive Event (Item : Type) :=
  | RequestsGet (url : string)
  | ConnectionListpages (wiki category module_body : string)
  | LoggerError (msg : string) (args : list (string * string)) (exc_info : PyExn)
  | StoreGlobalOverrides (config : TomlDocument Item)
  | StoreSupportedWikis (configs : list (TomlDocument Item)).
Arguments RequestsGet {Item} url.
Arguments ConnectionListpages {Item} wiki category module_body.
Arguments LoggerError {Item} msg args exc_info.
Arguments StoreGlobalOverrides {Item} config.
Arguments StoreSupportedWikis {Item} configs.

Record World (DB Item : Type) := mkWorld {
  db : DB;
  events : list (Event Item);
}.
Arguments mkWorld {DB Item} db events.
Arguments db {DB Item} _.
Arguments events {DB Item} _.

(** A computation without effect, run for its result. *)
Definition pure {A} (m : M () A) : Result A := (m ()).2.

Definition assert {S} (condition : bool) : M S () :=
  if condition then mret () else raise AssertionError.

Section remote.
Context {DB Item : Type} `{TomlItem Item} `{EqDecision Item}.
(** The class hierarchy of the running program. *)
Variable issubclass : string → string → bool.
(** [tomlkit.parse]. *)
Variable tomlkit_parse : string → Result (TomlDocument Item).
(** [requests.get(url).text]. *)
Variable requests_get : string → Result string.
(** [connection.listpages(wiki, category=..., module_body=...)], as the
    text of each page it yields and how the iteration ends. *)
Variable connection_listpages : string → string → string → list string * option PyExn.
(** [database.store_global_overrides], [database.store_supported_wikis]. *)
Variable store_global_overrides : TomlDocument Item → DB → DB.
Variable store_supported_wikis : list (TomlDocument Item) → DB → DB.

Definition lift_result {S A} (r : Result A) : M S A := λ s, (s, r).

Definition emit (event : Event Item) : M (World DB Item) () :=
  modify (λ w, mkWorld (db w) (events w ++ [event])).

(** Lines 57-66. What [tomlkit.parse] returns is a dict, so the first
    assertion holds. *)
Definition parse_raw_overrides_config (raw_config : string)
    : Result (TomlDocument Item) :=
  pure (
    config ← lift_result (tomlkit_parse raw_config);
    for_each (λ _ overrides,
                assert (isinstance_list overrides);;
                for_each (λ _ override,
                            has_action ← lift_result (contains "action" override);
                            assert has_action)
                         (list_items overrides) ())
             (config.*2) ();;
    mret config).

(** Lines 95-102. What [tomlkit.parse] returns is a dict, so the first
    assertion holds; [x in (0, 1)] is [x == 0 or x == 1]. *)
Definition parse_raw_wiki_config (raw_config : string)
    : Result (TomlDocument Item) :=
  pure (
    config ← lift_result (tomlkit_parse raw_config);
    assert (bool_decide ("id" ∈ config.*1));;
    assert (bool_decide ("secure" ∈ config.*1));;
    match list_find (λ item, item.1 = "secure") config with
    | Some (_, (_, secure)) => assert (eq_int secure 0 || eq_int secure 1)
    | None => raise (KeyError "secure")
    end;;
    mret config).

(** [except (TOMLKitError, AssertionError)] *)
Definition parse_errors : list string := ["TOMLKitError"; "AssertionError"].

(** Lines 45-54. *)
Definition fetch_global_overrides (local_config : gmap string string)
    : M (World DB Item) (TomlDocument Item) :=
  overrides_url ← getitem local_config "overrides_url";
  emit (RequestsGet overrides_url);;
  raw_config ← lift_result (requests_get overrides_url);
  let config := [] in
  try_except (lift_result (parse_raw_overrides_config raw_config))
    (λ error, Driver.isinstance issubclass error parse_errors)
    (λ error,
       emit (LoggerError "Couldn't parse global overrides config" [] error);;
       mret config).

(** [next(filter(bool, lines))] *)
Definition next_nonempty {S} (lines : list string) : M S string :=
  match list_find (λ line, line ≠ EmptyString) lines with
  | Some (_, line) => mret line
  | None => raise StopIteration
  end.

(** Lines 79-91: the body of the loop of [fetch_supported_wikis]. *)
Definition parse_wiki_page (configs : list (TomlDocument Item)) (raw_config : string)
    : M (World DB Item) (list (TomlDocument Item)) :=
  try_except
    (config ← lift_result (parse_raw_wiki_config raw_config);
     mret (configs ++ [config]))
    (λ error, Driver.isinstance issubclass error parse_errors)
    (λ error,
       first_line ← next_nonempty (split_lines raw_config);
       emit (LoggerError "Could not parse wiki config %s"
               [("raw_config", raw_config); ("first_line", first_line)] error);;
       mret configs).

(** Lines 69-92. *)
Definition fetch_supported_wikis (local_config : gmap string string)
    : M (World DB Item) (list (TomlDocument Item)) :=
  let configs := [] in
  config_wiki ← getitem local_config "config_wiki";
  category ← getitem local_config "wiki_config_category";
  emit (ConnectionListpages config_wiki category wiki_config_listpages_body);;
  let '(pages, outcome) :=
    connection_listpages config_wiki category wiki_config_listpages_body in
  configs ← for_each parse_wiki_page pages configs;
  match outcome with
  | Some error => raise error
  | None => mret configs
  end.

Definition database_store_global_overrides (config : TomlDocument Item)
    : M (World DB Item) () :=
  modify (λ w, mkWorld (store_global_overrides config (db w))
                       (events w ++ [StoreGlobalOverrides config])).

Definition database_store_supported_wikis (configs : list (TomlDocument Item))
    : M (World DB Item) () :=
  modify (λ w, mkWorld (store_supported_wikis configs (db w))
                       (events w ++ [StoreSupportedWikis configs])).

(** Lines 27-42. *)
Definition get_global_config (local_config : gmap string string)
    : M (World DB Item) () :=
  Driver.try_cache issubclass (fetch_global_overrides local_config)
    database_store_global_overrides [] None;;
  Driver.try_cache issubclass (fetch_supported_wikis local_config)
    database_store_supported_wikis [] None.

(** *** Vocabulary of the properties *)

(** The first non-empty line of a page, if it has one. *)
Definition first_line (raw_config : string) : option string :=
  snd <$> list_find (λ line, line ≠ EmptyString) (split_lines raw_config).

(** What a page contributes: its config when it parses, the error record
    when it does not. *)
Definition page_config (raw_config : string) : option (TomlDocument Item) :=
  match parse_raw_wiki_config raw_config with
  | Return config => Some config
  | Raise _ => None
  end.

Definition page_log (raw_config : string) : option (Event Item) :=
  match parse_raw_wiki_config raw_config with
  | Return _ => None
  | Raise error =>
      Some (LoggerError "Could not parse wiki config %s"
              [("raw_config", raw_config);
               ("first_line", default EmptyString (first_line raw_config))] error)
  end.

(** A page that parses, or fails with one of the two handled errors and
    has a non-empty line. *)
Definition handled (raw_config : string) : Prop :=
  match parse_raw_wiki_config raw_config with
  | Return _ => True
  | Raise error =>
      Driver.isinstance issubclass error parse_errors = true
      ∧ is_Some (first_line raw_config)
  end.

(** A page that does not parse and is made of line breaks only. *)
Definition blank_page (raw_config : string) : Prop :=
  (∃ error, parse_raw_wiki_config raw_config = Raise error
            ∧ Driver.isinstance issubclass error parse_errors = true)
  ∧ Forall (λ c, c = newline) (String.list_ascii_of_string raw_config).
End remote.

(** Whether an event is a write to the database. *)
Definition is_store {Item} (event : Event Item) : bool :=
  match event with
  | StoreGlobalOverrides _ | StoreSupportedWikis _ => true
  | _ => false
  end.

(** A computation that writes nothing: the events it adds are no stores. *)
Definition fetches_only {DB Item A} (m : M (World DB Item) A) : Prop :=
  ∀ w, ∃ new, events (m w).1 = events w ++ new
              ∧ Forall (λ event, is_store event = false) new.

(** The values written to the database, in order. *)
Definition stored_overrides {Item} (events : list (Event Item))
    : list (TomlDocument Item) :=
  omap (λ event, match event with
                 | StoreGlobalOverrides config => Some config
                 | _ => None
                 end) events.

Definition stored_wikis {Item} (events : list (Event Item))
    : list (list (TomlDocument Item)) :=
  omap (λ event, match event with
                 | StoreSupportedWikis configs => Some configs
                 | _ => None
                 end) events.
End Remote.

(** ** Test doubles used by the examples *)

Module Fixtures.
Import NewPosts.

(** Modelled from the spec: the database driver behind
    [BaseDatabaseDriver] is not part of these sources.  This in-memory
    driver follows the spec's StorageQuery: [find_new_posts] and
    [find_new_threads] return "the subset of the input not already
    recorded", and the two stores record the id they are given. *)
Record MemDB := mkMemDB {
  wikis : list (gmap string string);
  recorded_posts : list string;
  recorded_threads : list string;
}.

Global Instance MemDB_driver : BaseDatabaseDriver MemDB := {|
  get_supported_wikis := wikis;
  find_new_posts d ids := filter (λ i, i ∉ recorded_posts d) ids;
  find_new_threads d ids := filter (λ i, i ∉ recorded_threads d) ids;
  store_thread _ _ thread d :=
    mkMemDB (wikis d) (recorded_posts d) (recorded_threads d ++ [thread.1.1.1]);
  store_post post d :=
    match post !! "id" with
    | Some i => mkMemDB (wikis d) (recorded_posts d ++ [i]) (recorded_threads d)
    | None => d
    end;
|}.

(** Every exception class derives from [Exception]. *)
Definition all_exceptions (sub sup : string) : bool :=
  bool_decide (sub = sup) || bool_decide (sup = "Exception").

Definition thread_meta : gmap string string :=
  {[ "category_id" := "c-1"; "category_name" := "General"; "title" := "Hello";
     "creator_username" := "alice"; "created_timestamp" := "1600000000" ]}.

Definition post (id : string) : gmap string string :=
  {[ "id" := id; "content" := "text" ]}.

Definition wiki (id : string) : gmap string string := {[ "id" := id ]}.

Definition entry (thread_id post_id : string) : gmap string string :=
  {[ "id" := thread_id +:+ "/" +:+ post_id ]}.

Definition network_error : PyExn := mkExn "ConnectionError" "connection reset".

(** A feed item id is ["<thread>/<post>"] with two-character ids. *)
Definition parse_two (id : string) : Result Entry :=
  if bool_decide (String.length id = 5)
  then Return (String.substring 0 2 id, String.substring 3 2 id)
  else Raise (mkExn "ValueError" id).

(** Thread T1 has post P1, every other thread has post P3; no failure. *)
Definition remote_ok (wiki_id thread_id : string) (post_id : option string)
    : Stream :=
  if bool_decide (thread_id = "T1") then ([thread_meta; post "P1"], None)
  else ([thread_meta; post "P3"], None).

(** The fetch of thread T1 fails after its metadata and post P1. *)
Definition remote_failing (wiki_id thread_id : string) (post_id : option string)
    : Stream :=
  if bool_decide (thread_id = "T1")
  then ([thread_meta; post "P1"], Some network_error)
  else ([thread_meta; post "P3"], None).

(** The feed of every wiki has one post, P1 of thread T1. *)
Definition feed_ok (url : string)
    : Result (gmap string (list (gmap string string))) :=
  Return {[ "entries" := [entry "T1" "P1"] ]}.

(** The feed of every wiki has two posts, P1 of thread T1 and P3 of T2. *)
Definition feed_two (url : string)
    : Result (gmap string (list (gmap string string))) :=
  Return {[ "entries" := [entry "T1" "P1"; entry "T2" "P3"] ]}.

Definition feed_down (url : string)
    : Result (gmap string (list (gmap string string))) :=
  Raise network_error.

(** Nothing recorded; posts P1 and P3 recorded, for the wikis aa and bb. *)
Definition no_records : MemDB := mkMemDB [] [] [].

Definition two_wikis : MemDB := mkMemDB [wiki "aa"; wiki "bb"] ["P1"; "P3"] [].

Definition empty_world (d : MemDB) : World MemDB := mkWorld d [] [].
End Fixtures.

(** ** More test doubles: malformed feeds and streams, an SQLite
    connection, a configuration wiki *)

Module MoreFixtures.
Import NewPosts Fixtures.

(** [KeyboardInterrupt] does not derive from [Exception]; every other
    class does. *)
Definition builtin_exceptions (sub sup : string) : bool :=
  bool_decide (sub = sup)
  || (bool_decide (sup = "Exception") && negb (bool_decide (sub = "KeyboardInterrupt"))).

Definition keyboard_interrupt : PyExn := mkExn "KeyboardInterrupt" "".

Definition feed_interrupted (url : string)
    : Result (gmap string (list (gmap string string))) :=
  Raise keyboard_interrupt.

(** A feed whose second entry has no id. *)
Definition feed_bad (url : string)
    : Result (gmap string (list (gmap string string))) :=
  Return {[ "entries" := [entry "T1" "P1"; ∅; entry "T2" "P3"] ]}.

Definition feed_empty (url : string)
    : Result (gmap string (list (gmap string string))) :=
  Return {[ "entries" := [] ]}.

(** A stream that starts with a post instead of the thread's metadata. *)
Definition remote_no_meta (wiki_id thread_id : string) (post_id : option string)
    : Stream :=
  ([post "P1"], None).

(** A stream whose second post has no id. *)
Definition remote_post_without_id (wiki_id thread_id : string)
    (post_id : option string) : Stream :=
  ([thread_meta; post "P1"; {[ "content" := "text" ]}; post "P2"], None).

(** A remote that records the argument it is asked for. *)
Definition paginated_module_log (wiki_id module_name index_key : string)
    (starting_index : nat) (t : string) : M (list string) () :=
  modify (λ asked, asked ++ [t]).
End MoreFixtures.

Module SqliteFixtures.
Import Sqlite.

Inductive MemConn := mem_conn.

Definition post_row (id : Z) : Row := {[ "id" := SqlInt id ]}.

(** Posts 1, 2 and 3 are in subscribed threads; post 2 is also a reply to
    a subscribed post. No call fails. *)
Global Instance MemConn_connection : Connection MemConn := {|
  sqlite_execute sql params c :=
    (c, Return (if bool_decide (sql = "SELECT posts")
                then [post_row 1; post_row 2; post_row 3]
                else if bool_decide (sql = "SELECT replies") then [post_row 2]
                else []));
  sqlite_executescript sql c := (c, Return []);
  sqlite_commit c := (c, Return ());
|}.

Definition queries_dir : list (string * string) :=
  [ ("README.md", "The queries of the driver");
    ("get_posts_in_subscribed_threads.sql", "SELECT posts");
    ("get_replies_to_subscribed_posts.sql", "SELECT replies");
    ("create_tables.script.sql", "CREATE TABLE post") ].

Definition user_params : gmap string SqlValue :=
  {[ "user_id" := SqlText "u1"; "search_timestamp" := SqlInt 0 ]}.

Definition fresh_driver : SqliteDriver MemConn := mkDriver mem_conn ∅ [].

(** A driver that has cached one plain query and one script. *)
Definition warm_driver : SqliteDriver MemConn :=
  mkDriver mem_conn
    {[ "get_posts_in_subscribed_threads" := mkQuery false "SELECT posts";
       "create_tables" := mkQuery true "CREATE TABLE post" ]} [].
End SqliteFixtures.

Module RemoteFixtures.
Import Remote.

(** Items are integers: no item is a list or a container. *)
Global Instance Z_item : TomlItem Z := {|
  isinstance_list _ := false;
  list_items _ := [];
  contains _ _ := Raise (mkExn "TypeError" "argument of type 'Integer' is not iterable");
  eq_int := Z.eqb;
|}.

Definition page_ok : string := "id = 7" +:+ String newline "secure = 1".

(** [page_ok] parses, a page of line breaks only is an empty document, and
    nothing else is TOML. *)
Definition toml_fixture (raw_config : string) : Result (TomlDocument Z) :=
  if bool_decide (raw_config = page_ok) then Return [("id", 7%Z); ("secure", 1%Z)]
  else if bool_decide (raw_config = String newline "") then Return []
  else Raise (mkExn "TOMLKitError" "").

Definition requests_fixture (url : string) : Result string := Return "nonsense".

Definition listing_ok (wiki category module_body : string)
    : list string * option PyExn :=
  ([page_ok; "nonsense"; page_ok], None).

Definition listing_blank (wiki category module_body : string)
    : list string * option PyExn :=
  ([page_ok; String newline ""; page_ok], None).

Definition remote_config : gmap string string :=
  {[ "overrides_url" := "http://overrides";
     "config_wiki" := "cfg";
     "wiki_config_category" := "wikis" ]}.

(** A database that counts the writes made to it. *)
Definition count_store {V} (value : V) (writes : nat) : nat := S writes.

Definition fresh_world : World nat Z := mkWorld 0 [].
End RemoteFixtures.

(** * Properties *)

(** ** [try_cache] *)

Module DriverSpec.
Import Driver.

Section try_cache_spec.
Context {S V : Type} `{EqDecision V}.
Variable issubclass : string → string → bool.

End try_cache_spec.
End DriverSpec.

(** ** The stable sort on a boolean key *)

Section list_sort_spec.
Context {A : Type} (key : A → bool).

Lemma insert_by_key_false x l :
  key x = false → insert_by_key key x l = x :: l.
Proof. intros Hx. destruct l as [|y l]; simpl; [done|]. by rewrite Hx. Qed.

Lemma insert_by_key_true x fs ts :
  key x = true →
  Forall (λ y, key y = false) fs → Forall (λ y, key y = true) ts →
  insert_by_key key x (fs ++ ts) = fs ++ x :: ts.
Proof.
  intros Hx Hfs Hts. induction Hfs as [|y fs Hy _ IH]; simpl.
  - destruct Hts as [|z ts Hz _]; simpl; [done|]. by rewrite Hx, Hz.
  - by rewrite Hx, Hy, IH.
Qed.

(** A stable sort on a two-valued key puts the [False] items first and the
    [True] items after them, each group in its input order. *)
Lemma sort_key_partition l :
  list_sort key l =
  filter (λ x, key x = false) l ++ filter (λ x, key x = true) l.
Proof.
  induction l as [|x l IH]; [done|].
  unfold list_sort in *. simpl. rewrite IH. rewrite !filter_cons.
  destruct (key x) eqn:Hx.
  - rewrite decide_False, decide_True by done.
    apply insert_by_key_true; [done| |]; apply Forall_forall;
      intros y Hy; by apply list_elem_of_filter in Hy as [? _].
  - rewrite decide_True, decide_False by done.
    by apply insert_by_key_false.
Qed.

Lemma list_sort_perm l : list_sort key l ≡ₚ l.
Proof.
  rewrite sort_key_partition. induction l as [|x l IH]; [done|].
  rewrite !filter_cons. destruct (key x).
  - rewrite decide_False, decide_True by done.
    by rewrite <- Permutation_middle, IH.
  - rewrite decide_True, decide_False by done. simpl. by rewrite IH.
Qed.
Lemma filter_all {B} (P : B → Prop) `{∀ x, Decision (P x)} (l : list B) :
  Forall P l → filter P l = l.
Proof.
  induction 1 as [|x l Hx _ IH]; [done|].
  by rewrite filter_cons, decide_True, IH.
Qed.

Lemma filter_none {B} (P : B → Prop) `{∀ x, Decision (P x)} (l : list B) :
  Forall (λ x, ¬ P x) l → filter P l = [].
Proof.
  induction 1 as [|x l Hx _ IH]; [done|].
  by rewrite filter_cons, decide_False, IH.
Qed.

(** Any stable sort on the key gives the list that [list_sort] gives: a
    list whose [False] items all stand before its [True] items, and which
    keeps the items of each key in their input order, is [list_sort key l].
    So the choice of insertion sort for the builtin loses nothing. *)
Lemma stable_sort_unique l fs ts :
  Forall (λ x, key x = false) fs → Forall (λ x, key x = true) ts →
  filter (λ x, key x = false) (fs ++ ts) = filter (λ x, key x = false) l →
  filter (λ x, key x = true) (fs ++ ts) = filter (λ x, key x = true) l →
  fs ++ ts = list_sort key l.
Proof.
  intros Hfs Hts Hfalse Htrue. rewrite sort_key_partition, <- Hfalse, <- Htrue.
  rewrite !filter_app.
  rewrite (filter_all _ fs Hfs), (filter_all _ ts Hts).
  rewrite (filter_none (λ x, key x = false) ts), (filter_none (λ x, key x = true) fs).
  - by rewrite app_nil_r.
  - eapply Forall_impl; [exact Hfs|]. intros x Hx. by rewrite Hx.
  - eapply Forall_impl; [exact Hts|]. intros x Hx. by rewrite Hx.
Qed.
End list_sort_spec.

(** ** The planner: [threads_pages_to_get] *)

Module PlannerSpec.
Import NewPosts Fixtures.

Lemma has_post_id_false (page : Page) : has_post_id page = false ↔ page.2 = None.
Proof.
  unfold has_post_id. rewrite bool_decide_eq_false.
  destruct (page.2); split; try done; intros Hn; [by destruct Hn|].
  intros Hn'. by apply Hn'.
Qed.

Lemma has_post_id_true (page : Page) : has_post_id page = true ↔ is_Some page.2.
Proof.
  unfold has_post_id. rewrite bool_decide_eq_true.
  destruct (page.2); split; done.
Qed.

Lemma threads_pages_to_get_partition new_thread_ids new_posts :
  threads_pages_to_get new_thread_ids new_posts =
  full_threads (pages_of_posts new_thread_ids new_posts)
  ++ single_pages (pages_of_posts new_thread_ids new_posts).
Proof.
  unfold threads_pages_to_get, full_threads, single_pages.
  rewrite sort_key_partition. f_equal; apply list_filter_iff; intros page.
  - apply has_post_id_false.
  - apply has_post_id_true.
Qed.

Lemma full_threads_app l1 l2 :
  full_threads (l1 ++ l2) = full_threads l1 ++ full_threads l2.
Proof. apply filter_app. Qed.

Lemma single_pages_app l1 l2 :
  single_pages (l1 ++ l2) = single_pages l1 ++ single_pages l2.
Proof. apply filter_app. Qed.

Lemma filter_idemp {A} (P : A → Prop) `{∀ x, Decision (P x)} (l : list A) :
  filter P (filter P l) = filter P l.
Proof.
  induction l as [|x l IH]; [done|].
  rewrite filter_cons. destruct (decide (P x)) as [Hx|Hx]; [|done].
  rewrite filter_cons, decide_True by done. by rewrite IH.
Qed.

Lemma filter_disjoint {A} (P Q : A → Prop)
    `{∀ x, Decision (P x)} `{∀ x, Decision (Q x)} (l : list A) :
  (∀ x, P x → Q x → False) → filter P (filter Q l) = [].
Proof.
  intros HPQ. induction l as [|x l IH]; [done|].
  rewrite filter_cons. destruct (decide (Q x)) as [Hx|Hx]; [|done].
  rewrite filter_cons, decide_False; [done|]. intros HP. by eapply HPQ.
Qed.

Lemma full_threads_idemp l : full_threads (full_threads l) = full_threads l.
Proof. apply filter_idemp. Qed.

Lemma single_pages_idemp l : single_pages (single_pages l) = single_pages l.
Proof. apply filter_idemp. Qed.

Lemma full_threads_single_pages l : full_threads (single_pages l) = [].
Proof.
  apply filter_disjoint. intros page Hn [? Hs]. rewrite Hn in Hs. done.
Qed.

Lemma single_pages_full_threads l : single_pages (full_threads l) = [].
Proof.
  apply filter_disjoint. intros page [? Hs] Hn. rewrite Hn in Hs. done.
Qed.

(** C3. The planner's output is the stable sort of the emitted pages on
    "has a post id": it is the full-thread pages in their emitted order
    followed by the single-post pages in their emitted order; it is a
    permutation of the emitted pages; each group keeps its relative order;
    and every page with no post id stands before every page with one.  The
    planner is a function, so its output is determined by its input. *)
Theorem threads_pages_to_get_stable_sort new_thread_ids new_posts :
  let emitted := pages_of_posts new_thread_ids new_posts in
  let plan := threads_pages_to_get new_thread_ids new_posts in
  plan = full_threads emitted ++ single_pages emitted
  ∧ plan ≡ₚ emitted
  ∧ full_threads plan = full_threads emitted
  ∧ single_pages plan = single_pages emitted
  ∧ (∀ i j thread_id thread_id' post_id,
       plan !! i = Some (thread_id, None) →
       plan !! j = Some (thread_id', Some post_id) → i < j).
Proof.
  intros emitted plan.
  assert (Hplan : plan = full_threads emitted ++ single_pages emitted)
    by apply threads_pages_to_get_partition.
  split_and!.
  - done.
  - apply list_sort_perm.
  - rewrite Hplan, full_threads_app, full_threads_idemp,
      full_threads_single_pages. by rewrite app_nil_r.
  - rewrite Hplan, single_pages_app, single_pages_idemp,
      single_pages_full_threads. done.
  - intros i j thread_id thread_id' post_id Hi Hj. rewrite Hplan in Hi, Hj.
    destruct (decide (i < length (full_threads emitted))) as [Hlt|Hge].
    + destruct (decide (j < length (full_threads emitted))) as [Hjlt|]; [|lia].
      rewrite lookup_app_l in Hj by done.
      apply list_elem_of_lookup_2, list_elem_of_filter in Hj as [Hj _]. done.
    + assert (Hle : length (full_threads emitted) ≤ i) by lia.
      rewrite lookup_app_r in Hi by exact Hle.
      apply list_elem_of_lookup_2, list_elem_of_filter in Hi as [[? Hi] _]. done.
Qed.



End PlannerSpec.

(** ** The delta: [remove_recorded] *)

Module DeltaSpec.
Import NewPosts Fixtures.

(** What line 40 keeps, for any answer of [find_new_posts]: the entries
    whose post id is not in the answer. *)
Lemma remove_recorded_spec new_post_ids new_posts (post : Entry) :
  post ∈ remove_recorded new_post_ids new_posts ↔
  post ∈ new_posts ∧ post.2 ∉ new_post_ids.
Proof. unfold remove_recorded. rewrite list_elem_of_filter. tauto. Qed.

(** C1, at the spec's scenario: the feed has [(T1,P1), (T1,P2), (T2,P3)] and
    storage knows post P1 and thread T1.  [find_new_posts] reports P2 and P3
    unknown; line 40 then removes exactly those two entries and keeps the
    recorded one, where the claim keeps [(T1,P2)] and [(T2,P3)]. *)
Theorem remove_recorded_keeps_recorded_posts :
  let database := mkMemDB [] ["P1"] ["T1"] in
  let new_posts : list Entry := [("T1", "P1"); ("T1", "P2"); ("T2", "P3")] in
  let new_post_ids := find_new_posts database (new_posts.*2) in
  new_post_ids = ["P2"; "P3"]
  ∧ remove_recorded new_post_ids new_posts = [("T1", "P1")].
Proof. split; by vm_compute. Qed.
End DeltaSpec.

(** ** The crawl: [download_page], [download_pages] and the passes *)

Module CrawlSpec.
Import NewPosts Fixtures.

Section crawl_spec.
Context {DB : Type} `{BaseDatabaseDriver DB}.
Variable issubclass : string → string → bool.
Variable feedparser_parse :
  string → Result (gmap string (list (gmap string string))).
Variable parse_thread_url : string → Result Entry.
Variable connection_thread : string → string → option string → Stream.

Lemma quiet_ret {A} (a : A) : quiet (DB:=DB) (mret a).
Proof. done. Qed.

Lemma quiet_raise {A} e : quiet (DB:=DB) (@raise _ A e).
Proof. done. Qed.

Lemma quiet_bind {A B} (m : M (World DB) A) (f : A → M (World DB) B) :
  quiet m → (∀ a, quiet (f a)) → quiet (m ≫= f).
Proof.
  intros Hm Hf w. unfold mbind, M_bind. specialize (Hm w).
  destruct (m w) as [w1 [a|e]]; simpl in *; [|done].
  destruct (Hf a w1) as [-> ->]. done.
Qed.

Lemma quiet_logger level msg : quiet (logger (DB:=DB) level msg).
Proof. done. Qed.

Lemma quiet_getitem {V} (d : gmap string V) key : quiet (DB:=DB) (getitem d key).
Proof. unfold getitem. destruct (d !! key); done. Qed.

Lemma quiet_store_thread wiki_id category thread :
  quiet (database_store_thread wiki_id category thread).
Proof.
  intros w. unfold database_store_thread, mbind, M_bind. simpl.
  unfold fetched_pages, parsed_feeds. rewrite !omap_app. simpl.
  by rewrite !app_nil_r.
Qed.

Lemma quiet_store_post post : quiet (database_store_post post).
Proof.
  intros w. unfold database_store_post, mbind, M_bind. simpl.
  unfold fetched_pages, parsed_feeds. rewrite !omap_app. simpl.
  by rewrite !app_nil_r.
Qed.

Create HintDb quiet.
Local Hint Resolve quiet_ret quiet_raise quiet_logger quiet_getitem
  quiet_store_thread quiet_store_post : quiet.

Ltac quiet := repeat first [ solve [auto with quiet] | apply quiet_bind; [|intros ?] ].

Lemma quiet_store_item wiki_id thread_id post_index thread_or_post seen_posts :
  quiet (store_item wiki_id thread_id post_index thread_or_post seen_posts).
Proof. unfold store_item. case_bool_decide; quiet. Qed.

Lemma quiet_store_items wiki_id thread_id items : ∀ post_index seen_posts,
  quiet (store_items wiki_id thread_id post_index items seen_posts).
Proof.
  induction items as [|item items IH]; intros post_index seen_posts; simpl.
  - quiet.
  - apply quiet_bind; [apply quiet_store_item|]. intros ?. apply IH.
Qed.

Lemma bind_run {S A B} (m : M S A) (f : A → M S B) (s : S) :
  (m ≫= f) s =
  match m s with
  | (s', Return a) => f a s'
  | (s', Raise e) => (s', Raise e)
  end.
Proof. done. Qed.

Ltac run :=
  unfold database_store_thread, database_store_post, call, logger, modify,
    getitem, lift_result, gets, raise, mbind, M_bind, mret, M_ret in *;
  simpl in *.

Lemma store_item_prefix wiki_id thread_id post_index item seen_posts w w' seen_posts' :
  store_item wiki_id thread_id post_index item seen_posts w = (w', Return seen_posts') →
  seen_posts `prefix_of` seen_posts'.
Proof.
  unfold store_item. intros Hrun. case_bool_decide; run;
    repeat case_match; simplify_eq; [done|]. by apply prefix_app_r.
Qed.

Lemma store_items_prefix wiki_id thread_id items :
  ∀ post_index seen_posts w w' seen_posts',
  store_items wiki_id thread_id post_index items seen_posts w
    = (w', Return seen_posts') →
  seen_posts `prefix_of` seen_posts'.
Proof.
  induction items as [|item items IH]; intros post_index seen_posts w w' seen_posts' Hrun.
  - simpl in Hrun. run. by simplify_eq.
  - simpl in Hrun. unfold mbind, M_bind in Hrun.
    destruct (store_item _ _ _ _ _ w) as [w1 [seen1|e]] eqn:Hitem; [|done].
    apply store_item_prefix in Hitem. apply IH in Hrun. by etrans.
Qed.

(** The body of the outer loop makes the remote fetch of its page unless
    one of the two guards skips it, whatever happens afterwards. *)
Lemma download_page_fetched wiki_id seen page w :
  let w' := (download_page connection_thread wiki_id seen page w).1 in
  fetched_pages (calls w') =
    fetched_pages (calls w) ++ (if should_skip page seen then [] else [(wiki_id, page)])
  ∧ parsed_feeds (calls w') = parsed_feeds (calls w).
Proof.
  unfold download_page, should_skip. destruct page as [thread_id post_id].
  destruct (thread_already_downloaded seen _); simpl.
  { by rewrite app_nil_r. }
  destruct (post_already_seen seen _); simpl.
  { by rewrite app_nil_r. }
  destruct (connection_thread wiki_id thread_id post_id) as [items outcome].
  match goal with |- context [(_ ;; _ ;; ?rest) w] =>
    assert (Hq : quiet rest); [|set (r := rest) in *; clearbody r] end.
  { apply quiet_bind; [apply quiet_store_items|]. intros ?.
    apply quiet_bind; [destruct outcome; quiet|]. intros ?. destruct post_id; quiet. }
  unfold mbind, M_bind. simpl.
  match goal with |- context [r ?w1] => destruct (Hq w1) as [-> ->] end.
  simpl. unfold fetched_pages, parsed_feeds. rewrite !omap_app. simpl.
  by rewrite app_nil_r.
Qed.

(** Both seen lists only grow. *)
Lemma download_page_seen wiki_id seen page w w' seen' :
  download_page connection_thread wiki_id seen page w = (w', Return seen') →
  posts_already_seen seen `prefix_of` posts_already_seen seen'
  ∧ full_threads_already_seen seen `prefix_of` full_threads_already_seen seen'.
Proof.
  unfold download_page. destruct page as [thread_id post_id].
  destruct (thread_already_downloaded seen _).
  { intros Hrun. run. by simplify_eq. }
  destruct (post_already_seen seen _).
  { intros Hrun. run. by simplify_eq. }
  destruct (connection_thread wiki_id thread_id post_id) as [items outcome].
  unfold mbind, M_bind. simpl.
  destruct (store_items _ _ _ _ _ _) as [w1 [seen1|e]] eqn:Hitems; [|done].
  apply store_items_prefix in Hitems.
  destruct outcome; run; [done|].
  destruct post_id; intros; simplify_eq; simpl; split; try done.
  by apply prefix_app_r.
Qed.

(** The inner loop on posts (any index after the first). *)
Lemma store_posts_run wiki_id thread_id posts :
  forallb is_post posts = true →
  ∀ post_index seen_posts w,
  store_items wiki_id thread_id (S post_index) posts seen_posts w =
  (mkWorld (foldl (λ d post, store_post post d) (db w) posts)
           (calls w ++ (StorePost <$> posts)) (log w),
   Return (seen_posts ++ post_ids posts)).
Proof.
  induction posts as [|post posts IH]; intros Hposts post_index seen_posts w.
  - simpl. rewrite !app_nil_r. by destruct w.
  - simpl in Hposts. apply andb_prop in Hposts as [Hpost Hposts].
    apply bool_decide_eq_true_1 in Hpost as [id Hid].
    cbn [store_items]. unfold mbind at 1, M_bind at 1.
    assert (Hitem : store_item wiki_id thread_id (S post_index) post seen_posts w =
      (mkWorld (store_post post (db w)) (calls w ++ [StorePost post]) (log w),
       Return (seen_posts ++ [id]))).
    { unfold store_item. rewrite bool_decide_eq_false_2 by done. run. by rewrite Hid. }
    rewrite Hitem, (IH Hposts). simpl. unfold post_ids. simpl. rewrite Hid. simpl.
    by rewrite <- !app_assoc.
Qed.

(** The inner loop on a well-typed stream: the first item goes to
    [store_thread], the others to [store_post], and the ids of the others
    are appended to [posts_already_seen]. *)
Lemma store_items_run wiki_id thread_id items seen_posts w :
  well_typed items = true →
  store_items wiki_id thread_id 0 items seen_posts w =
  (mkWorld (stored wiki_id thread_id items (db w))
           (calls w ++ store_calls wiki_id thread_id items)
           (log w ++ store_log items),
   Return (seen_posts ++ post_ids (tail items))).
Proof.
  destruct items as [|thread_meta posts]; intros Htyped.
  - simpl. rewrite !app_nil_r. by destruct w.
  - simpl in Htyped. apply andb_prop in Htyped as [Hmeta Hposts].
    unfold is_thread_meta in Hmeta. simpl in Hmeta.
    repeat (apply andb_prop in Hmeta as [?%bool_decide_eq_true_1 Hmeta]).
    repeat match goal with Hk : is_Some _ |- _ => destruct Hk as [? Hk] end.
    cbn [store_items]. unfold mbind at 1, M_bind at 1.
    assert (Hitem : store_item wiki_id thread_id 0 thread_meta seen_posts w =
      (mkWorld (store_thread wiki_id (thread_category thread_meta)
                  (thread_summary thread_id thread_meta) (db w))
               (calls w ++ [StoreThread wiki_id (thread_category thread_meta)
                              (thread_summary thread_id thread_meta)])
               (log w ++ [(DEBUG, "Storing metadata for thread %s")]),
       Return seen_posts)).
    { unfold store_item, thread_category, thread_summary, field.
      rewrite bool_decide_eq_true_2 by done. run.
      repeat match goal with Hk : _ !! _ = Some _ |- _ => rewrite Hk; clear Hk end.
      done. }
    rewrite Hitem, (store_posts_run _ _ _ Hposts). simpl.
    by rewrite <- !app_assoc.
Qed.

(** The outer loop keeps an invariant of the seen lists that its body
    keeps, and fetches only pages that the invariant does not rule out. *)
Lemma download_pages_invariant (I : SeenState → Prop) (Q : Page → Prop) wiki_id :
  (∀ seen page w w' seen',
     I seen →
     download_page connection_thread wiki_id seen page w = (w', Return seen') →
     I seen') →
  (∀ seen page, I seen → should_skip page seen = false → Q page) →
  ∀ pages seen w, I seen →
  ∃ fetched,
    fetched_pages (calls (download_pages connection_thread wiki_id pages seen w).1)
      = fetched_pages (calls w) ++ ((λ page, (wiki_id, page)) <$> fetched)
    ∧ parsed_feeds (calls (download_pages connection_thread wiki_id pages seen w).1)
      = parsed_feeds (calls w)
    ∧ Forall Q fetched
    ∧ fetched `sublist_of` pages
    ∧ match (download_pages connection_thread wiki_id pages seen w).2 with
      | Return seen' => I seen'
      | Raise _ => True
      end.
Proof.
  intros Hkeep Hskip pages. unfold download_pages.
  induction pages as [|page pages IH]; intros seen w Hseen.
  - exists []. simpl. rewrite app_nil_r. by repeat split.
  - cbn [for_each]. unfold mbind, M_bind.
    destruct (download_page_fetched wiki_id seen page w) as [Hf Hp].
    destruct (download_page connection_thread wiki_id seen page w)
      as [w1 [seen1|e]] eqn:Hpage; simpl in Hf, Hp.
    + destruct (IH seen1 w1) as (fetched & Hf1 & Hp1 & HQ & Hsub & Hres).
      { by eapply Hkeep. }
      destruct (should_skip page seen) eqn:Hs.
      * exists fetched. rewrite Hf1, Hp1, Hf, Hp, app_nil_r.
        repeat split; try done. by apply sublist_cons.
      * exists (page :: fetched). rewrite Hf1, Hp1, Hf, Hp, <- app_assoc.
        repeat split; try done.
        -- constructor; [by eapply Hskip|done].
        -- by apply sublist_skip.
    + simpl. destruct (should_skip page seen) eqn:Hs.
      * exists []. rewrite Hf, Hp. repeat split; try done. apply sublist_nil_l.
      * exists [page]. rewrite Hf, Hp. repeat split; try done.
        -- constructor; [by eapply Hskip|done].
        -- apply sublist_skip, sublist_nil_l.
Qed.

Lemma should_skip_seen_post seen thread_id post_id :
  should_skip (thread_id, Some post_id) seen
  = bool_decide (post_id ∈ posts_already_seen seen).
Proof. done. Qed.

Lemma should_skip_seen_thread seen thread_id :
  should_skip (thread_id, None) seen
  = bool_decide (thread_id ∈ full_threads_already_seen seen).
Proof.
  unfold should_skip, thread_already_downloaded, post_already_seen. simpl.
  by rewrite orb_false_r.
Qed.

(** C7. Once post id [P] is in [posts_already_seen], every page whose post
    id is [P] is skipped, whatever its thread; in the rest of the pass no
    remote fetch is made for a page with post id [P]; and [P] stays in
    [posts_already_seen], so this holds in every later state of the pass. *)
Theorem seen_post_is_skipped wiki_id pages seen w post_id :
  post_id ∈ posts_already_seen seen →
  (∀ thread_id, should_skip (thread_id, Some post_id) seen = true)
  ∧ ∃ fetched,
      fetched_pages (calls (download_pages connection_thread wiki_id pages seen w).1)
        = fetched_pages (calls w) ++ ((λ page, (wiki_id, page)) <$> fetched)
      ∧ (∀ thread_id, (thread_id, Some post_id) ∉ fetched)
      ∧ match (download_pages connection_thread wiki_id pages seen w).2 with
        | Return seen' =>
            post_id ∈ posts_already_seen seen'
            ∧ ∀ thread_id, should_skip (thread_id, Some post_id) seen' = true
        | Raise _ => True
        end.
Proof.
  intros Hseen. split.
  { intros thread_id. rewrite should_skip_seen_post. by apply bool_decide_eq_true_2. }
  destruct (download_pages_invariant
              (λ seen, post_id ∈ posts_already_seen seen)
              (λ page, page.2 ≠ Some post_id) wiki_id) with (pages:=pages) (seen:=seen) (w:=w)
    as (fetched & Hf & _ & HQ & _ & Hres); [| |done|].
  - intros seen0 page w0 w' seen' Hin Hrun.
    apply download_page_seen in Hrun as [Hposts _].
    destruct Hposts as [more ->]. apply elem_of_app. by left.
  - intros seen0 [thread_id [post_id'|]] Hin Hskip; [|done].
    rewrite should_skip_seen_post in Hskip.
    apply bool_decide_eq_false_1 in Hskip. simpl. congruence.
  - exists fetched. split_and!; [done| |].
    + intros thread_id Hin. rewrite Forall_forall in HQ. by apply HQ in Hin.
    + destruct (download_pages _ _ _ _ _).2; [|done]. split; [done|].
      intros thread_id. rewrite should_skip_seen_post. by apply bool_decide_eq_true_2.
Qed.

(** A plan holds a thread either in full or by single pages: when the
    planner emits [(T, None)], every page it emits for [T] is [(T, None)]
    (lines 49-52 decide by [thread_id in new_thread_ids] alone). *)
Lemma planned_full_thread new_thread_ids new_posts thread_id :
  (thread_id, None) ∈ threads_pages_to_get new_thread_ids new_posts →
  ∀ post_id,
    (thread_id, post_id) ∈ threads_pages_to_get new_thread_ids new_posts →
    post_id = None.
Proof.
  unfold threads_pages_to_get, pages_of_posts. intros Hfull post_id Hin.
  rewrite list_sort_perm in Hfull. rewrite list_sort_perm in Hin.
  apply list_elem_of_fmap in Hfull as ([t p] & Heq & _).
  apply list_elem_of_fmap in Hin as ([t' p'] & Heq' & _).
  simpl in Heq, Heq'. injection Heq as <- Hnone. injection Heq' as Ht' ->.
  subst t'. by case_bool_decide.
Qed.

(** A thread enters [full_threads_already_seen] only by the page that
    crawls it in full. *)
Lemma download_page_full_threads wiki_id seen page w w' seen' :
  download_page connection_thread wiki_id seen page w = (w', Return seen') →
  ∀ thread_id, thread_id ∈ full_threads_already_seen seen' →
               thread_id ∈ full_threads_already_seen seen ∨ page = (thread_id, None).
Proof.
  unfold download_page. destruct page as [thread_id' post_id].
  destruct (thread_already_downloaded seen _).
  { intros Hrun. run. simplify_eq. by left. }
  destruct (post_already_seen seen _).
  { intros Hrun. run. simplify_eq. by left. }
  destruct (connection_thread wiki_id thread_id' post_id) as [items outcome].
  unfold mbind, M_bind. simpl.
  destruct (store_items _ _ _ _ _ _) as [w1 [seen1|e]] eqn:Hitems; [|done].
  destruct outcome; run; [done|].
  destruct post_id; intros Heq thread_id Hin; simplify_eq; simpl in Hin.
  - by left.
  - apply elem_of_app in Hin as [Hin|Hin]; [by left|].
    apply list_elem_of_singleton in Hin as ->. by right.
Qed.

Lemma download_pages_full_threads wiki_id pages : ∀ seen w w' seen',
  download_pages connection_thread wiki_id pages seen w = (w', Return seen') →
  ∀ thread_id, thread_id ∈ full_threads_already_seen seen' →
               thread_id ∈ full_threads_already_seen seen ∨ (thread_id, None) ∈ pages.
Proof.
  unfold download_pages.
  induction pages as [|page pages IH]; intros seen w w' seen' Hrun thread_id Hin.
  - simpl in Hrun. injection Hrun as _ <-. by left.
  - cbn [for_each] in Hrun. rewrite bind_run in Hrun.
    destruct (download_page connection_thread wiki_id seen page w)
      as [w1 [seen1|e]] eqn:Hpage; [|done].
    destruct (IH _ _ _ _ Hrun _ Hin) as [Hin1|Hin1].
    + destruct (download_page_full_threads _ _ _ _ _ _ Hpage _ Hin1) as [?| ->];
        [by left|right; apply elem_of_cons; by left].
    + right. apply elem_of_cons. by right.
Qed.

(** C2. In one pass, once thread [T] is in [full_threads_already_seen], no
    task on [T] is executed again. The pass runs the planner's output from
    empty seen lists. At the state reached after any part [ran] of the
    plan, if [T] is in [full_threads_already_seen], then every task on [T]
    in the rest of the plan, whatever its post id, is skipped by
    [should_skip], at that state and at every state that still has [T]; the
    rest of the pass makes no remote fetch of any page of [T]; and [T]
    stays in [full_threads_already_seen]. *)
Theorem seen_thread_is_skipped wiki_id new_thread_ids new_posts ran rest
    w w1 seen1 thread_id :
  threads_pages_to_get new_thread_ids new_posts = ran ++ rest →
  download_pages connection_thread wiki_id ran (mkSeen [] []) w
    = (w1, Return seen1) →
  thread_id ∈ full_threads_already_seen seen1 →
  (∀ post_id seen',
     (thread_id, post_id) ∈ rest →
     thread_id ∈ full_threads_already_seen seen' →
     should_skip (thread_id, post_id) seen' = true)
  ∧ ∃ fetched,
      fetched_pages (calls (download_pages connection_thread wiki_id rest seen1 w1).1)
        = fetched_pages (calls w1) ++ ((λ page, (wiki_id, page)) <$> fetched)
      ∧ (∀ post_id, (thread_id, post_id) ∉ fetched)
      ∧ match (download_pages connection_thread wiki_id rest seen1 w1).2 with
        | Return seen' => thread_id ∈ full_threads_already_seen seen'
        | Raise _ => True
        end.
Proof.
  intros Hplan Hran Hseen.
  assert (Hfull : (thread_id, None) ∈ ran).
  { destruct (download_pages_full_threads _ _ _ _ _ _ Hran _ Hseen) as [Hin|Hin];
      [|done]. simpl in Hin. by apply elem_of_nil in Hin. }
  assert (Hnone : ∀ post_id, (thread_id, post_id) ∈ rest → post_id = None).
  { intros post_id Hin.
    apply (planned_full_thread new_thread_ids new_posts thread_id);
      rewrite Hplan, elem_of_app; auto. }
  split.
  { intros post_id seen' Hin Hseen'.
    rewrite (Hnone _ Hin), should_skip_seen_thread. by apply bool_decide_eq_true_2. }
  destruct (download_pages_invariant
              (λ seen, thread_id ∈ full_threads_already_seen seen)
              (λ page, page ≠ (thread_id, None)) wiki_id)
    with (pages:=rest) (seen:=seen1) (w:=w1)
    as (fetched & Hf & _ & HQ & Hsub & Hres); [| |done|].
  - intros seen0 page w0 w' seen' Hin Hrun.
    apply download_page_seen in Hrun as [_ Hgrow].
    destruct Hgrow as [more ->]. apply elem_of_app. by left.
  - intros seen0 page Hin Hskip ->.
    rewrite should_skip_seen_thread in Hskip.
    by apply bool_decide_eq_false_1 in Hskip.
  - exists fetched. split_and!; [done| |].
    + intros post_id Hin. rewrite Forall_forall in HQ. apply (HQ _ Hin).
      by rewrite (Hnone post_id (elem_of_sublist _ _ _ Hin Hsub)).
    + by destruct (download_pages _ _ _ _ _).2.
Qed.

Lemma download_page_run wiki_id seen thread_id post_id items outcome w :
  should_skip (thread_id, post_id) seen = false →
  connection_thread wiki_id thread_id post_id = (items, outcome) →
  well_typed items = true →
  download_page connection_thread wiki_id seen (thread_id, post_id) w =
  let w1 :=
    mkWorld (stored wiki_id thread_id items (db w))
      (calls w ++ ConnectionThread wiki_id thread_id post_id
                  :: store_calls wiki_id thread_id items)
      (log w ++ (DEBUG, "Downloading thread %s") :: store_log items) in
  let posts_already_seen := posts_already_seen seen ++ post_ids (tail items) in
  match outcome, post_id with
  | Some error, _ => (w1, Raise error)
  | None, None =>
      (mkWorld (db w1) (calls w1) (log w1 ++ [(DEBUG, "Downloaded thread %s")]),
       Return (mkSeen posts_already_seen
                      (full_threads_already_seen seen ++ [thread_id])))
  | None, Some _ =>
      (mkWorld (db w1) (calls w1)
         (log w1 ++ [(DEBUG, "Downloaded thread page containing post %s")]),
       Return (mkSeen posts_already_seen (full_threads_already_seen seen)))
  end.
Proof.
  intros Hskip Hstream Htyped. unfold should_skip in Hskip.
  apply orb_false_elim in Hskip as [Hthread Hpost].
  unfold download_page. rewrite Hthread, Hpost, Hstream.
  unfold mbind at 1 2 3, M_bind at 1 2 3. simpl.
  rewrite store_items_run by done. simpl. rewrite <- !app_assoc. simpl.
  destruct outcome, post_id; run; rewrite <- ?app_assoc; done.
Qed.

(** C8. A page that is not skipped, whose stream is exhausted without an
    exception: the first item is written once by [store_thread] and the
    later items by [store_post], in order ([store_calls]); the ids of the
    later items, and not the first item's, are appended to
    [posts_already_seen]; and the thread id is appended to
    [full_threads_already_seen] when the page's post id is [None], and not
    otherwise. *)
Theorem download_page_stores wiki_id seen thread_id post_id items w :
  should_skip (thread_id, post_id) seen = false →
  connection_thread wiki_id thread_id post_id = (items, None) →
  well_typed items = true →
  ∃ w' seen',
    download_page connection_thread wiki_id seen (thread_id, post_id) w
      = (w', Return seen')
    ∧ calls w' = calls w ++ ConnectionThread wiki_id thread_id post_id
                            :: store_calls wiki_id thread_id items
    ∧ db w' = stored wiki_id thread_id items (db w)
    ∧ posts_already_seen seen'
      = posts_already_seen seen ++ post_ids (tail items)
    ∧ full_threads_already_seen seen'
      = full_threads_already_seen seen
        ++ match post_id with None => [thread_id] | Some _ => [] end.
Proof.
  intros Hskip Hstream Htyped.
  rewrite (download_page_run _ _ _ _ _ _ _ Hskip Hstream Htyped).
  destruct post_id; simpl; eexists _, _; split_and!; try done.
  simpl. by rewrite app_nil_r.
Qed.


(** *** The feed and the passes *)

(** C5. When [feedparser.parse] raises an [Exception], the handler logs the
    error and execution goes on to [feed["entries"]] with [feed] unbound:
    [fetch_new_posts_rss] raises [UnboundLocalError] where the claim has it
    return an empty list. *)
Theorem fetch_new_posts_rss_feed_failure wiki_id (w : World DB) error :
  feedparser_parse (new_posts_rss wiki_id) = Raise error →
  issubclass (exn_type error) "Exception" = true →
  fetch_new_posts_rss issubclass feedparser_parse parse_thread_url wiki_id w
  = (mkWorld (db w) (calls w ++ [FeedparserParse (new_posts_rss wiki_id)])
             (log w ++ [(ERROR, "Could not parse RSS feed %s")]),
     Raise (UnboundLocalError "feed")).
Proof.
  intros Hfeed Hexn. unfold fetch_new_posts_rss, try_except. run.
  by rewrite Hfeed, Hexn.
Qed.

Lemma quiet_lift_result {A} (r : Result A) : quiet (lift_result (DB:=DB) r).
Proof. done. Qed.

Lemma quiet_for_each {A B} (body : B → A → M (World DB) B) l :
  (∀ acc x, quiet (body acc x)) → ∀ acc, quiet (for_each body l acc).
Proof.
  intros Hbody. induction l as [|x l IH]; intros acc; simpl.
  - apply quiet_ret.
  - apply quiet_bind; [apply Hbody|]. intros ?. apply IH.
Qed.

(** Every run of [fetch_new_posts_rss] asks the feed parser for the wiki's
    feed once, and makes no remote fetch. *)
Lemma fetch_new_posts_rss_calls wiki_id (w : World DB) :
  let w' := (fetch_new_posts_rss issubclass feedparser_parse parse_thread_url
               wiki_id w).1 in
  parsed_feeds (calls w') = parsed_feeds (calls w) ++ [new_posts_rss wiki_id]
  ∧ fetched_pages (calls w') = fetched_pages (calls w).
Proof.
  unfold fetch_new_posts_rss.
  match goal with |- context [(try_except ?body ?c ?h ≫= ?rest) w] =>
    assert (Hq : ∀ feed, quiet (rest feed));
    [|set (r := rest) in *; clearbody r;
      assert (Htry : ∃ w1 res, try_except body c h w = (w1, res)
                ∧ calls w1 = calls w ++ [FeedparserParse (new_posts_rss wiki_id)])] end.
  { intros feed. apply quiet_bind; [destruct feed; [apply quiet_ret|apply quiet_raise]|].
    intros ?. apply quiet_bind; [apply quiet_getitem|]. intros ?.
    apply quiet_for_each. intros acc entry.
    apply quiet_bind; [apply quiet_getitem|]. intros ?.
    apply quiet_bind; [apply quiet_lift_result|]. intros ?. apply quiet_ret. }
  { unfold try_except. run.
    destruct (feedparser_parse _) as [feed|error]; [by eexists _, _|].
    destruct (issubclass _ _); by eexists _, _. }
  destruct Htry as (w1 & res & Htry & Hcalls). cbv zeta.
  rewrite bind_run, Htry.
  assert (Hw1 : parsed_feeds (calls w1)
                = parsed_feeds (calls w) ++ [new_posts_rss wiki_id]
                ∧ fetched_pages (calls w1) = fetched_pages (calls w)).
  { rewrite Hcalls. unfold parsed_feeds, fetched_pages. rewrite !omap_app. simpl.
    by rewrite app_nil_r. }
  destruct res as [feed|error]; [|done].
  destruct (Hq feed w1) as [-> ->]. done.
Qed.

(** Every run of [fetch_posts_with_context] retrieves the wiki's feed
    exactly once, however it ends. *)
Lemma fetch_posts_with_context_feeds wiki_id (w : World DB) :
  parsed_feeds (calls (fetch_posts_with_context issubclass feedparser_parse
                         parse_thread_url connection_thread wiki_id w).1)
  = parsed_feeds (calls w) ++ [new_posts_rss wiki_id].
Proof.
  unfold fetch_posts_with_context.
  destruct (fetch_new_posts_rss_calls wiki_id w) as [Hfeeds _].
  unfold mbind at 1, M_bind at 1.
  destruct (fetch_new_posts_rss _ _ _ _ _) as [w1 [new_posts|error]];
    simpl in Hfeeds; [|done].
  run.
  match goal with |- context [download_pages ?c ?wi ?ps ?sn ?w2] =>
    destruct (download_pages_invariant (λ _, True) (λ _, True) wi
                (λ _ _ _ _ _ _ _, I) (λ _ _ _ _, I) ps sn w2 I)
      as (? & _ & Hp & _);
    destruct (download_pages c wi ps sn w2) as [w3 [seen3|error]]
  end; simpl in *; by rewrite Hp.
Qed.

(** The pass of one wiki retrieves that wiki's feed exactly once. *)
Lemma wiki_pass_feeds id (w : World DB) :
  parsed_feeds (calls (wiki_pass issubclass feedparser_parse parse_thread_url
                         connection_thread id w).1)
  = parsed_feeds (calls w) ++ [new_posts_rss id].
Proof.
  unfold wiki_pass. rewrite bind_run. unfold logger at 1, modify.
  by rewrite fetch_posts_with_context_feeds.
Qed.

(** C6, as the code has it. [get_new_posts] runs the passes of the
    supported wikis in order, one pass per wiki, up to and including the
    first pass that raises. When no pass raises, every wiki gets exactly
    one pass and [get_new_posts] returns. When a pass raises,
    [get_new_posts] raises the same error in the state that pass left: the
    wikis after it get no pass. The passes started are also seen in the
    feeds retrieved: those of the first [k] wikis, each once. *)
Theorem get_new_posts_passes (w : World DB) ids :
  Forall2 (λ wiki id, wiki !! "id" = Some id) (get_supported_wikis (db w)) ids →
  ∃ k,
    runs_passes (wiki_pass issubclass feedparser_parse parse_thread_url
                   connection_thread)
      ids w k
      (get_new_posts issubclass feedparser_parse parse_thread_url
         connection_thread w)
    ∧ k ≤ length ids
    ∧ parsed_feeds (calls (get_new_posts issubclass feedparser_parse
                             parse_thread_url connection_thread w).1)
      = parsed_feeds (calls w) ++ (new_posts_rss <$> take k ids)
    ∧ match (get_new_posts issubclass feedparser_parse parse_thread_url
               connection_thread w).2 with
      | Return _ => k = length ids
      | Raise _ => 0 < k
      end.
Proof.
  assert (Hrun : get_new_posts issubclass feedparser_parse parse_thread_url
                   connection_thread w
                 = for_each _ (get_supported_wikis (db w)) () w) by done.
  rewrite Hrun. clear Hrun.
  pose proof wiki_pass_feeds as Hfeeds.
  match goal with |- context [for_each ?b _ _ _] => set (body := b) in * end.
  assert (Hbody : ∀ wiki id (w : World DB), wiki !! "id" = Some id →
            body () wiki w
            = wiki_pass issubclass feedparser_parse parse_thread_url
                connection_thread id w).
  { intros wiki id w0 Hid. unfold body, wiki_pass. rewrite bind_run.
    unfold getitem. by rewrite Hid. }
  set (pass := wiki_pass _ _ _ _) in *. clearbody pass body.
  generalize (get_supported_wikis (db w)). intros wikis Hids.
  revert w. induction Hids as [|wiki id wikis ids Hid _ IH]; intros w.
  - exists 0. simpl. rewrite app_nil_r. split_and!; [constructor|done..].
  - cbn [for_each]. rewrite bind_run, (Hbody _ _ _ Hid).
    specialize (Hfeeds id w).
    destruct (pass id w) as [w2 [[]|error]] eqn:Hpass; simpl in Hfeeds.
    + destruct (IH w2) as (k & Hruns & Hk & Hf & Hres). exists (S k).
      rewrite Hf, Hfeeds. simpl. rewrite <- app_assoc.
      split_and!; [by eapply runs_passes_return|lia|done|].
      revert Hres. destruct (for_each _ _ _ _).2; lia.
    + exists 1. simpl. rewrite Hfeeds.
      split_and!; [by apply runs_passes_raise|lia|by rewrite ?take_0|lia].
Qed.
End crawl_spec.
End CrawlSpec.

(** ** The claims at concrete inputs *)

Module Examples.
Import NewPosts Fixtures CrawlSpec.

(** C7 at a state where P1 has been seen: the page of P1 in thread T2 is
    skipped. *)
Lemma seen_post_is_skipped_witness :
  let seen := mkSeen ["P1"] [] in
  "P1" ∈ posts_already_seen seen
  ∧ ∀ thread_id, should_skip (thread_id, Some "P1") seen = true.
Proof.
  assert (Hin : "P1" ∈ posts_already_seen (mkSeen ["P1"] [])).
  { apply (bool_decide_unpack _). vm_compute. exact I. }
  split; [exact Hin|].
  exact (proj1 (seen_post_is_skipped (DB:=MemDB) remote_ok "aa"
                  [("T2", Some "P1")] (mkSeen ["P1"] [])
                  (empty_world no_records) "P1" Hin)).
Defined.

(** C2 at a pass whose plan holds thread T1 twice in full: after the
    first page, T1 is in [full_threads_already_seen]; the second page of
    T1 is skipped and the rest of the pass fetches thread T2 only. *)
Lemma seen_thread_is_skipped_witness :
  let ran := download_pages remote_ok "aa" [("T1", None)] (mkSeen [] [])
               (empty_world no_records) in
  let rest := [("T1", None); ("T2", Some "P3")] in
  threads_pages_to_get ["T1"] [("T1", "P1"); ("T1", "P2"); ("T2", "P3")]
    = ("T1", None) :: rest
  ∧ ran.2 = Return (mkSeen ["P1"] ["T1"])
  ∧ (∀ post_id, ("T1", post_id) ∈ rest →
                should_skip ("T1", post_id) (mkSeen ["P1"] ["T1"]) = true)
  ∧ ∃ fetched,
      fetched_pages
        (calls (download_pages remote_ok "aa" rest (mkSeen ["P1"] ["T1"]) ran.1).1)
        = fetched_pages (calls ran.1) ++ ((λ page, ("aa", page)) <$> fetched)
      ∧ ∀ post_id, ("T1", post_id) ∉ fetched.
Proof.
  assert (Hin : "T1" ∈ full_threads_already_seen (mkSeen ["P1"] ["T1"])).
  { apply (bool_decide_unpack _). vm_compute. exact I. }
  destruct (seen_thread_is_skipped (DB:=MemDB) remote_ok "aa" ["T1"]
              [("T1", "P1"); ("T1", "P2"); ("T2", "P3")]
              [("T1", None)] [("T1", None); ("T2", Some "P3")]
              (empty_world no_records)
              (download_pages remote_ok "aa" [("T1", None)] (mkSeen [] [])
                 (empty_world no_records)).1
              (mkSeen ["P1"] ["T1"]) "T1")
    as (Hskip & fetched & Hfetched & Hnone & _).
  - vm_compute. reflexivity.
  - vm_compute. reflexivity.
  - exact Hin.
  - cbv zeta. split; [vm_compute; reflexivity|].
    split; [vm_compute; reflexivity|].
    split; [intros post_id Hrest; exact (Hskip post_id _ Hrest Hin)|].
    exists fetched. split; [exact Hfetched|exact Hnone].
Defined.

(** C8 at the spec's scenario: the full crawl of thread T2. *)
Lemma download_page_stores_witness :
  ∃ w' seen',
    download_page remote_ok "aa" (mkSeen [] []) ("T2", None)
      (empty_world no_records) = (w', Return seen')
    ∧ calls w' =
        [ConnectionThread "aa" "T2" None;
         StoreThread "aa" ("c-1", "General")
           ("T2", "Hello", "alice", "1600000000");
         StorePost (post "P3")]
    ∧ posts_already_seen seen' = ["P3"]
    ∧ full_threads_already_seen seen' = ["T2"].
Proof.
  destruct (download_page_stores (DB:=MemDB) remote_ok "aa" (mkSeen [] [])
              "T2" None [thread_meta; post "P3"] (empty_world no_records))
    as (w' & seen' & Hrun & Hcalls & _ & Hposts & Hfull).
  - vm_compute. reflexivity.
  - vm_compute. reflexivity.
  - vm_compute. reflexivity.
  - exists w', seen'. split; [exact Hrun|].
    split; [rewrite Hcalls; vm_compute; reflexivity|].
    split; [rewrite Hposts; vm_compute; reflexivity|].
    rewrite Hfull. vm_compute. reflexivity.
Defined.



(** C5 at a feed that cannot be retrieved. *)
Lemma fetch_new_posts_rss_feed_failure_witness :
  fetch_new_posts_rss all_exceptions feed_down parse_two "aa"
    (empty_world no_records)
  = (mkWorld no_records
       [FeedparserParse "http://aa.wikidot.com/feed/forum/posts.xml"]
       [(ERROR, "Could not parse RSS feed %s")],
     Raise (UnboundLocalError "feed")).
Proof.
  rewrite (fetch_new_posts_rss_feed_failure (DB:=MemDB) all_exceptions feed_down
             parse_two "aa" (empty_world no_records) network_error);
    vm_compute; reflexivity.
Defined.

(** C6 at two wikis whose passes both return: each gets one pass. *)
Lemma get_new_posts_passes_witness :
  ∃ k,
    runs_passes (wiki_pass all_exceptions feed_ok parse_two remote_ok)
      ["aa"; "bb"] (empty_world two_wikis) k
      (get_new_posts all_exceptions feed_ok parse_two remote_ok
         (empty_world two_wikis))
    ∧ k ≤ 2
    ∧ parsed_feeds (calls (get_new_posts all_exceptions feed_ok parse_two
                             remote_ok (empty_world two_wikis)).1)
      = new_posts_rss <$> take k ["aa"; "bb"]
    ∧ match (get_new_posts all_exceptions feed_ok parse_two remote_ok
               (empty_world two_wikis)).2 with
      | Return _ => k = 2
      | Raise _ => 0 < k
      end.
Proof.
  apply (get_new_posts_passes (DB:=MemDB) all_exceptions feed_ok parse_two
           remote_ok (empty_world two_wikis) ["aa"; "bb"]).
  repeat constructor.
Defined.

(** C6, as stated, fails. The pass of wiki aa raises (its remote fetch
    fails); [get_new_posts] raises and the feed of wiki bb is never
    retrieved: bb gets no pass. *)
Lemma failing_pass_stops_other_wikis :
  let run := get_new_posts all_exceptions feed_ok parse_two remote_failing
               (empty_world two_wikis) in
  get_supported_wikis (db (empty_world two_wikis)) = [wiki "aa"; wiki "bb"]
  ∧ run.2 = Raise network_error
  ∧ parsed_feeds (calls run.1) = [new_posts_rss "aa"].
Proof. split_and!; by vm_compute. Qed.
End Examples.

(** ** More on newposts.py: the feed, skipped pages, malformed items *)

Module NewPostsMore.
Import NewPosts Fixtures CrawlSpec.

Ltac run_m :=
  unfold database_store_thread, database_store_post, call, logger, modify,
    getitem, lift_result, gets, raise, mbind, M_bind, mret, M_ret in *;
  simpl in *.

Lemma for_each_app_run {S A B} (body : B → A → M S B) (l1 l2 : list A)
    (acc : B) (s : S) :
  for_each body (l1 ++ l2) acc s =
  match for_each body l1 acc s with
  | (s', Return acc') => for_each body l2 acc' s'
  | (s', Raise e) => (s', Raise e)
  end.
Proof.
  revert acc s. induction l1 as [|x l1 IH]; intros acc s; [done|].
  cbn [app for_each]. rewrite !bind_run.
  destruct (body acc x s) as [s1 [acc1|e]]; [apply IH|done].
Qed.

Section newposts_more.
Context {DB : Type} `{BaseDatabaseDriver DB}.
Variable issubclass : string → string → bool.
Variable feedparser_parse :
  string → Result (gmap string (list (gmap string string))).
Variable parse_thread_url : string → Result Entry.
Variable connection_thread : string → string → option string → Stream.

(** The loop of [fetch_new_posts_rss] over entries that all parse. *)
Lemma parse_entries_run entries new_posts :
  Forall2 (λ entry parsed, ∃ id, entry !! "id" = Some id
                                 ∧ parse_thread_url id = Return parsed)
          entries new_posts →
  ∀ acc (w : World DB),
  for_each (λ acc entry,
              id ← getitem entry "id";
              parsed ← lift_result (parse_thread_url id);
              mret (acc ++ [parsed]))
           entries acc w
  = (w, Return (acc ++ new_posts)).
Proof.
  induction 1 as [|entry parsed entries new_posts (id & Hid & Hparse) _ IH];
    intros acc w.
  - simpl. by rewrite app_nil_r.
  - cbn [for_each]. rewrite bind_run.
    assert (Hstep : (id ← getitem entry "id";
                     parsed ← lift_result (parse_thread_url id);
                     mret (acc ++ [parsed])) w = (w, Return (acc ++ [parsed]))).
    { run_m. by rewrite Hid, Hparse. }
    rewrite Hstep, IH. by rewrite <- app_assoc.
Qed.

(** X1. When the feed is retrieved and every entry has an id that parses,
    [fetch_new_posts_rss] returns the parsed (thread, post) pairs in feed
    order; it retrieves the feed once, logs nothing and leaves the
    database alone. *)
Theorem fetch_new_posts_rss_returns wiki_id (w : World DB) feed entries new_posts :
  feedparser_parse (new_posts_rss wiki_id) = Return feed →
  feed !! "entries" = Some entries →
  Forall2 (λ entry parsed, ∃ id, entry !! "id" = Some id
                                 ∧ parse_thread_url id = Return parsed)
          entries new_posts →
  fetch_new_posts_rss issubclass feedparser_parse parse_thread_url wiki_id w
  = (mkWorld (db w) (calls w ++ [FeedparserParse (new_posts_rss wiki_id)]) (log w),
     Return new_posts).
Proof.
  intros Hfeed Hentries Hparsed. unfold fetch_new_posts_rss.
  rewrite bind_run. unfold try_except. rewrite bind_run.
  unfold call at 1, modify at 1. rewrite bind_run. unfold lift_result at 1.
  rewrite Hfeed. cbn [mret M_ret]. rewrite bind_run. cbn [mret M_ret].
  rewrite bind_run. unfold getitem at 1. rewrite Hentries. cbn [mret M_ret].
  by rewrite (parse_entries_run _ _ Hparsed).
Qed.

(** X2. One malformed feed item makes the whole retrieval fail. If the
    entries before [bad] all parse and [bad] has no id, or an id that
    [parse_thread_url] rejects, then [fetch_new_posts_rss] raises that
    error: no entry is returned, the bad one is not dropped and the ones
    after it are not looked at. *)
Theorem fetch_new_posts_rss_bad_entry wiki_id (w : World DB) feed good parsed
    bad rest error :
  feedparser_parse (new_posts_rss wiki_id) = Return feed →
  feed !! "entries" = Some (good ++ bad :: rest) →
  Forall2 (λ entry parsed, ∃ id, entry !! "id" = Some id
                                 ∧ parse_thread_url id = Return parsed)
          good parsed →
  (bad !! "id" = None ∧ error = KeyError "id")
  ∨ (∃ id, bad !! "id" = Some id ∧ parse_thread_url id = Raise error) →
  fetch_new_posts_rss issubclass feedparser_parse parse_thread_url wiki_id w
  = (mkWorld (db w) (calls w ++ [FeedparserParse (new_posts_rss wiki_id)]) (log w),
     Raise error).
Proof.
  intros Hfeed Hentries Hparsed Hbad. unfold fetch_new_posts_rss.
  rewrite bind_run. unfold try_except. rewrite bind_run.
  unfold call at 1, modify at 1. rewrite bind_run. unfold lift_result at 1.
  rewrite Hfeed. cbn [mret M_ret]. rewrite bind_run. cbn [mret M_ret].
  rewrite bind_run. unfold getitem at 1. rewrite Hentries. cbn [mret M_ret].
  rewrite for_each_app_run, (parse_entries_run _ _ Hparsed).
  cbn [for_each]. rewrite bind_run.
  destruct Hbad as [[Hid ->]|(id & Hid & Hparse)]; run_m.
  - by rewrite Hid.
  - by rewrite Hid, Hparse.
Qed.

(** X3. An error of [feedparser.parse] that is not an [Exception] (a
    [KeyboardInterrupt], say) is not handled: it propagates unchanged and
    nothing is logged. *)
Theorem fetch_new_posts_rss_not_caught wiki_id (w : World DB) error :
  feedparser_parse (new_posts_rss wiki_id) = Raise error →
  issubclass (exn_type error) "Exception" = false →
  fetch_new_posts_rss issubclass feedparser_parse parse_thread_url wiki_id w
  = (mkWorld (db w) (calls w ++ [FeedparserParse (new_posts_rss wiki_id)]) (log w),
     Raise error).
Proof.
  intros Hfeed Hexn. unfold fetch_new_posts_rss, try_except. run_m.
  by rewrite Hfeed, Hexn.
Qed.

(** X4. A skipped page costs nothing: no remote fetch, no database write,
    the seen lists unchanged; one DEBUG record says which guard skipped
    it. *)
Theorem download_page_skipped wiki_id seen page (w : World DB) :
  should_skip page seen = true →
  download_page connection_thread wiki_id seen page w
  = (mkWorld (db w) (calls w)
       (log w ++ [(DEBUG, if thread_already_downloaded seen page
                          then "Skipping download of thread %s"
                          else "Skipping download of post %s")]),
     Return seen).
Proof.
  unfold should_skip, download_page. destruct page as [thread_id post_id].
  destruct (thread_already_downloaded seen _); [done|].
  destruct (post_already_seen seen _); done.
Qed.

Lemma download_page_marks_thread wiki_id seen thread_id (w w' : World DB) seen' :
  download_page connection_thread wiki_id seen (thread_id, None) w
    = (w', Return seen') →
  thread_id ∈ full_threads_already_seen seen'.
Proof.
  unfold download_page, thread_already_downloaded, post_already_seen. simpl.
  case_bool_decide as Hfull.
  { intros Hrun. run_m. by simplify_eq. }
  destruct (connection_thread wiki_id thread_id None) as [items outcome].
  unfold mbind, M_bind. simpl.
  destruct (store_items _ _ _ _ _ _) as [w1 [seen1|e]]; [|done].
  destruct outcome; run_m; [done|]. intros; simplify_eq. simpl.
  apply elem_of_app. right. by apply list_elem_of_singleton.
Qed.

(** X5. In one pass no thread is crawled in full twice: among the remote
    fetches of a run of the loop, the full-thread fetches are pairwise
    distinct, and none is for a thread that was already in
    [full_threads_already_seen]. *)
Theorem download_pages_full_thread_once wiki_id pages : ∀ seen (w : World DB),
  ∃ fetched,
    fetched_pages (calls (download_pages connection_thread wiki_id pages seen w).1)
      = fetched_pages (calls w) ++ ((λ page, (wiki_id, page)) <$> fetched)
    ∧ NoDup (full_threads fetched)
    ∧ ∀ thread_id, thread_id ∈ full_threads_already_seen seen →
                   (thread_id, None) ∉ fetched.
Proof.
  unfold download_pages. induction pages as [|page pages IH]; intros seen w.
  { exists []. simpl. rewrite app_nil_r. split_and!; [done|constructor|].
    intros ? _. apply not_elem_of_nil. }
  cbn [for_each]. rewrite bind_run.
  destruct (download_page_fetched connection_thread wiki_id seen page w) as [Hf _].
  assert (Hnew : should_skip page seen = false →
                 ∀ thread_id, thread_id ∈ full_threads_already_seen seen →
                              (thread_id, None) ≠ page).
  { intros Hskip thread_id Hin <-. rewrite should_skip_seen_thread in Hskip.
    by apply bool_decide_eq_false_1 in Hskip. }
  destruct (download_page connection_thread wiki_id seen page w)
    as [w1 [seen1|e]] eqn:Hpage; simpl in Hf.
  - destruct (IH seen1 w1) as (fetched & Hf1 & Hnd & Hseen).
    pose proof (download_page_seen _ _ _ _ _ _ _ Hpage) as [_ [more Hfull]].
    assert (Hmono : ∀ thread_id, thread_id ∈ full_threads_already_seen seen →
                                 (thread_id, None) ∉ fetched).
    { intros thread_id Hin. apply Hseen. rewrite Hfull. apply elem_of_app. by left. }
    destruct (should_skip page seen) eqn:Hskip.
    + exists fetched. rewrite Hf1, Hf, app_nil_r. by split_and!.
    + exists (page :: fetched). rewrite Hf1, Hf, <- app_assoc. split_and!; [done| |].
      * unfold full_threads. rewrite filter_cons.
        case_decide as Hnone; [|exact Hnd]. constructor; [|exact Hnd].
        intros Hin. apply list_elem_of_filter in Hin as [_ Hin].
        destruct page as [thread_id post_id]. simpl in Hnone. subst post_id.
        apply (Hseen thread_id); [|exact Hin].
        by eapply download_page_marks_thread.
      * intros thread_id Hin. apply not_elem_of_cons. split; [by apply Hnew|by apply Hmono].
  - simpl. destruct (should_skip page seen) eqn:Hskip.
    + exists []. rewrite Hf. split_and!; [done|constructor|].
      intros ? _. apply not_elem_of_nil.
    + exists [page]. rewrite Hf. split_and!; [done| |].
      * unfold full_threads. rewrite filter_cons, filter_nil.
        case_decide; [apply NoDup_singleton|constructor].
      * intros thread_id Hin. apply not_elem_of_cons.
        split; [by apply Hnew|apply not_elem_of_nil].
Qed.

(** X6. The remote fetches of the loop are planned pages of the wiki being
    crawled: they form a sublist of the plan (same order, none added, none
    repeated beyond the plan), and the loop retrieves no feed. *)
Theorem download_pages_fetches_planned wiki_id pages seen (w : World DB) :
  ∃ fetched,
    fetched_pages (calls (download_pages connection_thread wiki_id pages seen w).1)
      = fetched_pages (calls w) ++ ((λ page, (wiki_id, page)) <$> fetched)
    ∧ fetched `sublist_of` pages
    ∧ parsed_feeds (calls (download_pages connection_thread wiki_id pages seen w).1)
      = parsed_feeds (calls w).
Proof.
  destruct (download_pages_invariant connection_thread (λ _, True) (λ _, True)
              wiki_id (λ _ _ _ _ _ _ _, I) (λ _ _ _ _, I) pages seen w I)
    as (fetched & Hf & Hp & _ & Hsub & _).
  by exists fetched.
Qed.

(** X7. The two seen lists only grow during the loop: when it returns,
    the lists it started from are prefixes of the lists it ends with. *)
Theorem download_pages_seen_grows wiki_id pages seen (w w' : World DB) seen' :
  download_pages connection_thread wiki_id pages seen w = (w', Return seen') →
  posts_already_seen seen `prefix_of` posts_already_seen seen'
  ∧ full_threads_already_seen seen `prefix_of` full_threads_already_seen seen'.
Proof.
  intros Hrun.
  destruct (download_pages_invariant connection_thread
              (λ s, posts_already_seen seen `prefix_of` posts_already_seen s
                    ∧ full_threads_already_seen seen
                        `prefix_of` full_threads_already_seen s)
              (λ _, True) wiki_id) with (pages:=pages) (seen:=seen) (w:=w)
    as (_ & _ & _ & _ & _ & Hres); [| |done|].
  - intros s page w0 w1 s' [Hposts Hfull] Hpage.
    apply download_page_seen in Hpage as [Hposts' Hfull'].
    split; by etrans.
  - done.
  - by rewrite Hrun in Hres.
Qed.

Lemma store_items_app wiki_id thread_id items1 items2 :
  ∀ post_index seen_posts (w : World DB),
  store_items wiki_id thread_id post_index (items1 ++ items2) seen_posts w =
  match store_items wiki_id thread_id post_index items1 seen_posts w with
  | (w', Return seen_posts') =>
      store_items wiki_id thread_id (post_index + length items1) items2
                  seen_posts' w'
  | (w', Raise e) => (w', Raise e)
  end.
Proof.
  induction items1 as [|item items1 IH]; intros post_index seen_posts w.
  - simpl. by rewrite Nat.add_0_r.
  - cbn [app store_items length]. rewrite !bind_run.
    destruct (store_item _ _ _ _ _ _) as [w1 [seen1|e]]; [|done].
    rewrite IH. by replace (S post_index + length items1)
      with (post_index + S (length items1)) by lia.
Qed.

(** X8. A first item that lacks one of the metadata keys stops the page
    before anything is written: [download_page] raises [KeyError] for a
    key that is absent, after the remote fetch and with no call of
    [store_thread] or [store_post]. *)
Theorem download_page_bad_thread_meta wiki_id seen thread_id post_id
    thread_meta rest outcome (w : World DB) :
  should_skip (thread_id, post_id) seen = false →
  connection_thread wiki_id thread_id post_id = (thread_meta :: rest, outcome) →
  is_thread_meta thread_meta = false →
  ∃ key,
    thread_meta !! key = None
    ∧ download_page connection_thread wiki_id seen (thread_id, post_id) w
      = (mkWorld (db w)
           (calls w ++ [ConnectionThread wiki_id thread_id post_id])
           (log w ++ [(DEBUG, "Downloading thread %s");
                      (DEBUG, "Storing metadata for thread %s")]),
         Raise (KeyError key)).
Proof.
  intros Hskip Hstream Hmeta. unfold should_skip in Hskip.
  apply orb_false_elim in Hskip as [Hthread Hpost].
  unfold download_page. rewrite Hthread, Hpost, Hstream.
  unfold is_thread_meta in Hmeta. simpl in Hmeta.
  unfold store_items, store_item. rewrite bool_decide_eq_true_2 by done.
  destruct (thread_meta !! "category_id") as [?|] eqn:H1;
    [|exists "category_id"; split; [done|]; run_m; rewrite H1; simpl;
      by rewrite <- app_assoc].
  destruct (thread_meta !! "category_name") as [?|] eqn:H2;
    [|exists "category_name"; split; [done|]; run_m; rewrite H1, H2; simpl;
      by rewrite <- app_assoc].
  destruct (thread_meta !! "title") as [?|] eqn:H3;
    [|exists "title"; split; [done|]; run_m; rewrite H1, H2, H3; simpl;
      by rewrite <- app_assoc].
  destruct (thread_meta !! "creator_username") as [?|] eqn:H4;
    [|exists "creator_username"; split; [done|]; run_m;
      rewrite H1, H2, H3, H4; simpl; by rewrite <- app_assoc].
  destruct (thread_meta !! "created_timestamp") as [?|] eqn:H5;
    [|exists "created_timestamp"; split; [done|]; run_m;
      rewrite H1, H2, H3, H4, H5; simpl; by rewrite <- app_assoc].
  exfalso. revert Hmeta.
  rewrite !bool_decide_eq_true_2 by (by eexists). done.
Qed.

(** X9. A post without an id is written before the error shows: after
    well-typed items, a post item with no ["id"] key is passed to
    [store_post], and then [download_page] raises [KeyError("id")]; the
    items after it are not read and the seen lists are not updated. *)
Theorem download_page_post_without_id wiki_id seen thread_id post_id
    thread_meta good bad rest outcome (w : World DB) :
  should_skip (thread_id, post_id) seen = false →
  connection_thread wiki_id thread_id post_id
    = (thread_meta :: good ++ bad :: rest, outcome) →
  well_typed (thread_meta :: good) = true →
  bad !! "id" = None →
  download_page connection_thread wiki_id seen (thread_id, post_id) w
  = (mkWorld (store_post bad (stored wiki_id thread_id (thread_meta :: good) (db w)))
       (calls w ++ ConnectionThread wiki_id thread_id post_id
                   :: store_calls wiki_id thread_id (thread_meta :: good)
                   ++ [StorePost bad])
       (log w ++ [(DEBUG, "Downloading thread %s");
                  (DEBUG, "Storing metadata for thread %s")]),
     Raise (KeyError "id")).
Proof.
  intros Hskip Hstream Htyped Hbad. unfold should_skip in Hskip.
  apply orb_false_elim in Hskip as [Hthread Hpost].
  unfold download_page. rewrite Hthread, Hpost, Hstream.
  change (thread_meta :: good ++ bad :: rest)
    with ((thread_meta :: good) ++ bad :: rest).
  unfold logger, call, modify. do 3 (rewrite bind_run; cbn beta iota zeta).
  rewrite store_items_app, store_items_run by done.
  cbn [store_items]. rewrite bind_run.
  assert (Hitem : ∀ n acc (w0 : World DB),
            store_item wiki_id thread_id (S n) bad acc w0
            = (mkWorld (store_post bad (db w0)) (calls w0 ++ [StorePost bad])
                       (log w0), Raise (KeyError "id"))).
  { intros n acc w0. unfold store_item. rewrite bool_decide_eq_false_2 by done.
    run_m. by rewrite Hbad. }
  cbn [length Nat.add]. rewrite Hitem. simpl.
  by rewrite <- !app_assoc.
Qed.

(** X10. An empty feed makes an empty pass: [fetch_posts_with_context]
    returns after retrieving the feed, with no remote fetch and no database
    write, whatever the database answers. *)
Theorem fetch_posts_with_context_empty_feed wiki_id (w : World DB) feed :
  feedparser_parse (new_posts_rss wiki_id) = Return feed →
  feed !! "entries" = Some [] →
  fetch_posts_with_context issubclass feedparser_parse parse_thread_url
    connection_thread wiki_id w
  = (mkWorld (db w) (calls w ++ [FeedparserParse (new_posts_rss wiki_id)])
       (log w ++ [(DEBUG, "Found new posts in RSS %s");
                  (DEBUG, "Found new threads to download %s")]),
     Return ()).
Proof.
  intros Hfeed Hentries.
  unfold fetch_posts_with_context, fetch_new_posts_rss, try_except. run_m.
  rewrite Hfeed. simpl. rewrite Hentries. simpl. by rewrite <- app_assoc.
Qed.
End newposts_more.

(** *** [fetch_post_context] *)

Section post_context_spec.
Context {S R : Type}.
Variable paginated_module : string → string → string → nat → string → M S R.

Lemma lstrip_split chars s :
  ∃ stripped,
    s = stripped +:+ lstrip chars s
    ∧ Forall (λ c, c ∈ chars) (String.list_ascii_of_string stripped).
Proof.
  induction s as [|c s (stripped & Hs & Hall)].
  - exists "". by split.
  - simpl. case_bool_decide as Hc.
    + exists (String c stripped). simpl.
      split; [rewrite Hs at 1; reflexivity|by constructor].
    + exists "". by split.
Qed.

Lemma lstrip_head chars s :
  match lstrip chars s with
  | String c _ => c ∉ chars
  | EmptyString => True
  end.
Proof.
  induction s as [|c s IH]; [done|]. simpl. by case_bool_decide.
Qed.

(** X11. What [fetch_post_context] asks the remote for: the thread id with
    every leading [t] and [-] removed. The argument is a suffix of the id,
    what was cut is made of [t] and [-] only, and the argument does not
    begin with either character; nothing else is called, and the result of
    the call is dropped. *)
Theorem fetch_post_context_argument wiki_id thread_id :
  ∃ stripped t,
    thread_id = stripped +:+ t
    ∧ Forall (λ c, c ∈ thread_prefix_chars) (String.list_ascii_of_string stripped)
    ∧ match t with
      | String c _ => c ∉ thread_prefix_chars
      | EmptyString => True
      end
    ∧ fetch_post_context paginated_module wiki_id thread_id
      = (paginated_module wiki_id "forum/ForumViewThreadModule" "pageNo" 1 t;;
         mret ()).
Proof.
  destruct (lstrip_split thread_prefix_chars thread_id) as (stripped & Hs & Hall).
  exists stripped, (lstrip thread_prefix_chars thread_id).
  split_and!; [done|done|apply lstrip_head|done].
Qed.

(** X12. For a thread id of the form [t-<number>], where the number does
    not itself begin with [t] or [-], the remote is asked for exactly the
    number. *)
Theorem fetch_post_context_thread_number wiki_id number :
  match number with
  | String c _ => c ∉ thread_prefix_chars
  | EmptyString => True
  end →
  fetch_post_context paginated_module wiki_id ("t-" +:+ number)
  = (paginated_module wiki_id "forum/ForumViewThreadModule" "pageNo" 1 number;;
     mret ()).
Proof.
  intros Hhead. unfold fetch_post_context.
  replace (lstrip (String.list_ascii_of_string "t-") ("t-" +:+ number))
    with number; [done|].
  simpl. change ("" +:+ number) with number.
  destruct number as [|c number]; [done|]. cbn [lstrip].
  by rewrite bool_decide_eq_false_2.
Qed.
End post_context_spec.
End NewPostsMore.

(** ** The query-file cache and [SqliteDriver] *)

Module SqliteSpec.
Import Sqlite.

Ltac run_d :=
  unfold conn_execute, conn_executescript, conn_commit, read_query_file,
    row_getitem, modify, getitem, gets, raise, mbind, M_bind, mret, M_ret in *;
  simpl in *.

Lemma step {S A B} (m : M S A) (f : A → M S B) (s : S) :
  (m ≫= f) s =
  match m s with
  | (s', Return a) => f a s'
  | (s', Raise e) => (s', Raise e)
  end.
Proof. done. Qed.

(** *** File names *)

Lemma count_dots_app s1 s2 : count_dots (s1 +:+ s2) = count_dots s1 + count_dots s2.
Proof.
  induction s1 as [|c s1 IH]; [done|].
  change (String c s1 +:+ s2) with (String c (s1 +:+ s2)).
  cbn [count_dots]. rewrite IH. lia.
Qed.

Lemma count_dots_0 s : count_dots s = 0 ↔ ¬ has_dot s.
Proof.
  unfold has_dot. induction s as [|c s IH]; simpl.
  - split; [intros _ Hin; by apply elem_of_nil in Hin|done].
  - rewrite elem_of_cons. case_bool_decide as Hc; subst.
    + split; [lia|]. intros Hn. destruct Hn. by left.
    + simpl. rewrite IH. split; [|tauto]. intros Hn [?|?]; [by subst|done].
Qed.

Lemma before_dot_no_dot s : ¬ has_dot (before_dot s).
Proof.
  unfold has_dot. induction s as [|c s IH]; simpl.
  - apply not_elem_of_nil.
  - case_bool_decide as Hc; simpl; [apply not_elem_of_nil|].
    rewrite elem_of_cons. intros [?|?]; [by subst|done].
Qed.

Lemma before_dot_app stem rest :
  ¬ has_dot stem → before_dot (stem +:+ String "."%char rest) = stem.
Proof.
  unfold has_dot. induction stem as [|c stem IH]; intros Hdot.
  - change ("" +:+ String "."%char rest) with (String "."%char rest).
    done.
  - change (String c stem +:+ String "."%char rest)
      with (String c (stem +:+ String "."%char rest)).
    simpl in *. rewrite elem_of_cons in Hdot.
    rewrite bool_decide_eq_false_2 by (intros ->; apply Hdot; by left).
    f_equal. apply IH. intros Hin. apply Hdot. by right.
Qed.

Lemma endswith_spec s suffix :
  endswith s suffix = true ↔ ∃ prefix, s = prefix +:+ suffix.
Proof.
  induction s as [|c s IH]; simpl.
  - rewrite orb_false_r, bool_decide_eq_true. split.
    + intros <-. by exists "".
    + intros [prefix Hp]. destruct prefix; [done|discriminate].
  - rewrite orb_true_iff, bool_decide_eq_true, IH. split.
    + intros [<-|[prefix ->]]; [by exists ""|by exists (String c prefix)].
    + intros [[|c' prefix] Hp].
      * left. exact Hp.
      * right. exists prefix.
        change (String c' prefix +:+ suffix) with (String c' (prefix +:+ suffix)) in Hp.
        by injection Hp.
Qed.

Section driver_spec.
Context {Conn : Type} `{Connection Conn}.

Lemma read_query_file_miss dir query_name (d : SqliteDriver Conn) :
  list_find (λ path, before_dot path.1 = query_name) dir = None →
  read_query_file dir query_name d
  = (d, Raise (ValueError ("Query " +:+ query_name +:+ " does not exist"))).
Proof. intros Hfind. unfold read_query_file. by rewrite Hfind. Qed.

Lemma execute_named_miss dir query_name params (d : SqliteDriver Conn) :
  query_cache d !! query_name = None →
  list_find (λ path, before_dot path.1 = query_name) dir = None →
  execute_named dir query_name params d
  = (d, Raise (ValueError ("Query " +:+ query_name +:+ " does not exist"))).
Proof.
  intros Hcache Hfind. unfold execute_named. rewrite step. unfold gets at 1.
  rewrite bool_decide_eq_true_2 by done. rewrite step.
  by rewrite read_query_file_miss.
Qed.

Lemma execute_named_hit dir query_name params (d : SqliteDriver Conn) entry :
  query_cache d !! query_name = Some entry →
  execute_named dir query_name params d = run_cached entry params d.
Proof.
  intros Hcache. unfold execute_named. rewrite step. unfold gets at 1.
  rewrite bool_decide_eq_false_2 by (by rewrite Hcache). rewrite step.
  cbn [mret M_ret]. rewrite step. unfold gets at 1. rewrite step.
  unfold getitem. by rewrite Hcache.
Qed.

Lemma execute_named_load dir query_name params (d : SqliteDriver Conn) i name content :
  query_cache d !! query_name = None →
  list_find (λ path, before_dot path.1 = query_name) dir = Some (i, (name, content)) →
  execute_named dir query_name params d
  = run_cached (mkQuery (endswith name ".script.sql") content) params
      (mkDriver (conn d)
         (<[query_name := mkQuery (endswith name ".script.sql") content]>
            (query_cache d))
         (sql_calls d)).
Proof.
  intros Hcache Hfind. unfold execute_named. rewrite step. unfold gets at 1.
  rewrite bool_decide_eq_true_2 by done. rewrite step.
  unfold read_query_file. rewrite Hfind. unfold modify at 1.
  rewrite step. unfold gets at 1. rewrite step. unfold getitem.
  cbn [query_cache]. by rewrite lookup_insert_eq.
Qed.

Lemma run_cached_cache entry params (d : SqliteDriver Conn) :
  query_cache (run_cached entry params d).1 = query_cache d.
Proof.
  unfold run_cached. destruct (script entry), params; run_d; try done.
  - by destruct (sqlite_executescript _ _).
  - by destruct (sqlite_execute _ _ _).
  - by destruct (sqlite_execute _ _ _).
Qed.

(** X13. A query with no file is an error and nothing else: when the name
    is not cached and no file of the directory has it as the part before
    the first dot, [execute_named] raises [ValueError] naming the query;
    the cache and the connection are left as they were. *)
Theorem execute_named_unknown_query dir query_name params (d : SqliteDriver Conn) :
  query_cache d !! query_name = None →
  Forall (λ path, before_dot path.1 ≠ query_name) dir →
  execute_named dir query_name params d
  = (d, Raise (ValueError ("Query " +:+ query_name +:+ " does not exist"))).
Proof.
  intros Hcache Hnone. apply execute_named_miss; [done|].
  apply list_find_None. exact Hnone.
Qed.

(** X14. A query name that contains a dot can never be loaded from the
    directory, whatever files are there, because file names are compared
    by their part before the first dot. *)
Theorem execute_named_dotted_name dir query_name params (d : SqliteDriver Conn) :
  has_dot query_name →
  query_cache d !! query_name = None →
  execute_named dir query_name params d
  = (d, Raise (ValueError ("Query " +:+ query_name +:+ " does not exist"))).
Proof.
  intros Hdot Hcache. apply execute_named_miss; [done|].
  apply list_find_None, Forall_forall. intros path _ Heq.
  apply (before_dot_no_dot path.1). by rewrite Heq.
Qed.

(** X15. A cached query is not read again: when the name is in the cache,
    what [execute_named] does is the same for every content of the queries
    directory, and it leaves the cache as it is. *)
Theorem execute_named_cached dir1 dir2 query_name params (d : SqliteDriver Conn) :
  is_Some (query_cache d !! query_name) →
  execute_named dir1 query_name params d = execute_named dir2 query_name params d
  ∧ query_cache (execute_named dir1 query_name params d).1 = query_cache d.
Proof.
  intros [entry Hcache]. rewrite !(execute_named_hit _ _ _ _ _ Hcache).
  split; [done|apply run_cached_cache].
Qed.

(** X16. A cache miss loads the first matching file and then behaves as a
    hit: with [name] the first file of the directory whose part before the
    first dot is the query name, [execute_named] does what it would do had
    the entry been cached, and the cache then holds the file's content,
    marked as a script exactly when the file name ends in [.script.sql]. *)
Theorem execute_named_loads_first dir before name content after query_name params
    (d : SqliteDriver Conn) :
  query_cache d !! query_name = None →
  dir = before ++ (name, content) :: after →
  Forall (λ path, before_dot path.1 ≠ query_name) before →
  before_dot name = query_name →
  let entry := mkQuery (endswith name ".script.sql") content in
  let loaded := mkDriver (conn d) (<[query_name := entry]> (query_cache d))
                         (sql_calls d) in
  execute_named dir query_name params d = execute_named dir query_name params loaded
  ∧ query_cache (execute_named dir query_name params d).1
    = <[query_name := entry]> (query_cache d).
Proof.
  intros Hcache -> Hbefore Hname entry loaded.
  assert (Hfind : list_find (λ path, before_dot path.1 = query_name)
                    (before ++ (name, content) :: after)
                  = Some (length before, (name, content))).
  { apply list_find_Some. split_and!.
    - by rewrite list_lookup_middle.
    - done.
    - intros j path Hj Hlt. rewrite lookup_app_l in Hj by done.
      rewrite Forall_forall in Hbefore. apply Hbefore.
      by eapply list_elem_of_lookup_2. }
  rewrite (execute_named_load _ _ _ _ _ _ _ Hcache Hfind).
  rewrite (execute_named_hit _ _ _ loaded entry)
    by (unfold loaded; cbn [query_cache]; apply lookup_insert_eq).
  split; [done|]. by rewrite run_cached_cache.
Qed.

(** X17. A script takes no parameters: when the cached entry is a script
    and parameters are given, [execute_named] raises [ValueError] and
    nothing reaches the connection. *)
Theorem execute_named_script_params dir query_name params (d : SqliteDriver Conn) sql :
  query_cache d !! query_name = Some (mkQuery true sql) →
  execute_named dir query_name (Some params) d
  = (d, Raise (ValueError "Script does not accept params")).
Proof. intros Hcache. by rewrite (execute_named_hit _ _ _ _ _ Hcache). Qed.

(** X18. How a file name decides the kind of query: for a query name
    without a dot, the file [<name>.script.sql] is found under that name
    and ends in [.script.sql], and the file [<name>.sql] is found under
    that name and does not. *)
Theorem query_file_kind query_name :
  ¬ has_dot query_name →
  before_dot (query_name +:+ ".script.sql") = query_name
  ∧ endswith (query_name +:+ ".script.sql") ".script.sql" = true
  ∧ before_dot (query_name +:+ ".sql") = query_name
  ∧ endswith (query_name +:+ ".sql") ".script.sql" = false.
Proof.
  intros Hdot. split_and!.
  - by apply (before_dot_app query_name "script.sql").
  - apply endswith_spec. by exists query_name.
  - by apply (before_dot_app query_name "sql").
  - apply not_true_is_false. intros [prefix Heq]%endswith_spec.
    apply (f_equal count_dots) in Heq. rewrite !count_dots_app in Heq.
    apply count_dots_0 in Hdot. rewrite Hdot in Heq. simpl in Heq. lia.
Qed.

(** *** [get_new_posts_for_user] *)

Lemma reply_ids_run (rows : list Row) :
  Forall (λ row, is_Some (row !! "id")) rows →
  ∀ acc (d : SqliteDriver Conn),
  for_each (λ ids post, id ← row_getitem post "id"; mret (ids ++ [id])) rows acc d
  = (d, Return (acc ++ omap (λ row, row !! "id") rows)).
Proof.
  induction 1 as [|row rows [id Hid] _ IH]; intros acc d.
  - simpl. by rewrite app_nil_r.
  - cbn [for_each]. rewrite step.
    assert (Hstep : (id ← row_getitem row "id"; mret (acc ++ [id])) d
                    = (d, Return (acc ++ [id]))).
    { run_d. by rewrite Hid. }
    rewrite Hstep, IH. cbn [omap list_omap]. cbn beta. rewrite Hid. simpl.
    by rewrite <- app_assoc.
Qed.

Lemma keep_posts_run (ids : list SqlValue) (rows : list Row) :
  Forall (λ row, is_Some (row !! "id")) rows →
  ∀ kept (d : SqliteDriver Conn),
  for_each (λ kept thread_post,
              id ← row_getitem thread_post "id";
              mret (if bool_decide (id ∉ ids)
                    then kept ++ [thread_post] else kept))
           rows kept d
  = (d, Return (kept ++ filter (λ row, row !! "id" ∉ Some <$> ids) rows)).
Proof.
  induction 1 as [|row rows [id Hid] _ IH]; intros kept d.
  - simpl. by rewrite app_nil_r.
  - cbn [for_each]. rewrite step.
    assert (Hstep : (id ← row_getitem row "id";
                     mret (if bool_decide (id ∉ ids)
                           then kept ++ [row] else kept)) d
                    = (d, Return (if bool_decide (id ∉ ids)
                                  then kept ++ [row] else kept))).
    { run_d. by rewrite Hid. }
    rewrite Hstep, IH, filter_cons. cbn beta. rewrite Hid.
    assert (Hiff : Some id ∉ Some <$> ids ↔ id ∉ ids).
    { rewrite list_elem_of_fmap. split.
      - intros Hn Hin. apply Hn. by exists id.
      - intros Hn (id' & [= ->] & Hin). done. }
    destruct Hiff as [Hiff1 Hiff2]. case_bool_decide as Hid'; case_decide as Hdec.
    + by rewrite <- app_assoc.
    + exfalso. by apply (Hiff2 Hid').
    + exfalso. by apply (Hiff1 Hdec).
    + done.
Qed.

Lemma fmap_id_omap (rows : list Row) :
  Forall (λ row, is_Some (row !! "id")) rows →
  Some <$> omap (λ row, row !! "id") rows = (λ row, row !! "id") <$> rows.
Proof.
  induction 1 as [|row rows [id Hid] _ IH]; [done|].
  rewrite fmap_cons. cbn [omap list_omap]. cbn beta.
  rewrite Hid, fmap_cons. f_equal. exact IH.
Qed.

(** X19. [get_new_posts_for_user] returns no post twice: when both queries
    succeed and every row has an id, the post replies are the rows of the
    second query, untouched; the thread posts are the rows of the first
    query whose id is not the id of a post reply, in their order; so no id
    occurs in both lists. *)
Theorem get_new_posts_for_user_no_duplicates dir user_id search_timestamp
    (d d1 d2 : SqliteDriver Conn) rows1 rows2 :
  let params : gmap string SqlValue :=
    {[ "user_id" := SqlText user_id;
       "search_timestamp" := SqlInt search_timestamp ]} in
  execute_named dir "get_posts_in_subscribed_threads" (Some params) d
    = (d1, Return rows1) →
  execute_named dir "get_replies_to_subscribed_posts" (Some params) d1
    = (d2, Return rows2) →
  Forall (λ row, is_Some (row !! "id")) rows1 →
  Forall (λ row, is_Some (row !! "id")) rows2 →
  ∃ thread_posts,
    get_new_posts_for_user dir user_id search_timestamp d
      = (d2, Return (thread_posts, rows2))
    ∧ thread_posts
      = filter (λ row, row !! "id" ∉ (λ reply, reply !! "id") <$> rows2) rows1
    ∧ ∀ post reply, post ∈ thread_posts → reply ∈ rows2 →
                    post !! "id" ≠ reply !! "id".
Proof.
  intros params Hq1 Hq2 Hrows1 Hrows2.
  exists (filter (λ row, row !! "id" ∉ (λ reply, reply !! "id") <$> rows2) rows1).
  split_and!; [|done|].
  - unfold get_new_posts_for_user. fold params.
    rewrite step, Hq1, step, Hq2, step, (reply_ids_run _ Hrows2), step.
    rewrite (keep_posts_run _ _ Hrows1). simpl.
    by rewrite (fmap_id_omap _ Hrows2).
  - intros post reply [Hpost _]%list_elem_of_filter Hreply Heq.
    apply Hpost. rewrite Heq. apply list_elem_of_fmap. by exists reply.
Qed.

(** *** Commits *)

Lemma statements_only_ret {A} (a : A) : statements_only (Conn:=Conn) (mret a).
Proof. intros d. exists []. split; [by rewrite app_nil_r|apply not_elem_of_nil]. Qed.

Lemma statements_only_raise {A} e : statements_only (Conn:=Conn) (@raise _ A e).
Proof. intros d. exists []. split; [by rewrite app_nil_r|apply not_elem_of_nil]. Qed.

Lemma statements_only_bind {A B} (m : M (SqliteDriver Conn) A)
    (f : A → M (SqliteDriver Conn) B) :
  statements_only m → (∀ a, statements_only (f a)) → statements_only (m ≫= f).
Proof.
  intros Hm Hf d. rewrite step. destruct (Hm d) as (s1 & Hs1 & Hn1).
  destruct (m d) as [d1 [a|e]]; simpl in Hs1; [|by exists s1].
  destruct (Hf a d1) as (s2 & Hs2 & Hn2). exists (s1 ++ s2).
  rewrite Hs2, Hs1, app_assoc. split; [done|].
  rewrite elem_of_app. tauto.
Qed.

Lemma statements_only_for_each {A B} (body : B → A → M (SqliteDriver Conn) B) l :
  (∀ acc x, statements_only (body acc x)) → ∀ acc, statements_only (for_each body l acc).
Proof.
  intros Hbody. induction l as [|x l IH]; intros acc; cbn [for_each].
  - apply statements_only_ret.
  - apply statements_only_bind; [apply Hbody|]. intros ?. apply IH.
Qed.

Lemma statements_only_execute_named dir query_name params :
  statements_only (Conn:=Conn) (execute_named dir query_name params).
Proof.
  intros d. unfold execute_named. rewrite step. unfold gets at 1.
  assert (Hcached : ∀ entry (d0 : SqliteDriver Conn),
            ∃ stmts, sql_calls (run_cached entry params d0).1 = sql_calls d0 ++ stmts
                     ∧ Commit ∉ stmts).
  { intros entry d0. unfold run_cached. destruct (script entry), params; run_d.
    - exists []. split; [by rewrite app_nil_r|apply not_elem_of_nil].
    - destruct (sqlite_executescript _ _). simpl. eexists. split; [done|].
      by rewrite list_elem_of_singleton.
    - destruct (sqlite_execute _ _ _). simpl. eexists. split; [done|].
      by rewrite list_elem_of_singleton.
    - destruct (sqlite_execute _ _ _). simpl. eexists. split; [done|].
      by rewrite list_elem_of_singleton. }
  assert (Hrest : ∀ d0 : SqliteDriver Conn,
            ∃ stmts, sql_calls ((cache ← gets query_cache;
                                 entry ← getitem cache query_name;
                                 run_cached entry params) d0).1
                     = sql_calls d0 ++ stmts ∧ Commit ∉ stmts).
  { intros d0. rewrite step. unfold gets at 1. rewrite step. unfold getitem.
    destruct (query_cache d0 !! query_name) as [entry|]; [apply Hcached|].
    exists []. split; [by rewrite app_nil_r|apply not_elem_of_nil]. }
  rewrite step. case_bool_decide as Hc.
  - unfold read_query_file. destruct (list_find _ dir) as [[i [name content]]|].
    + unfold modify at 1. apply (Hrest (mkDriver _ _ _)).
    + exists []. split; [by rewrite app_nil_r|apply not_elem_of_nil].
  - cbn [mret M_ret]. apply Hrest.
Qed.

Lemma run_statements_app dir before after (d : SqliteDriver Conn) :
  run_statements dir (before ++ after) d
  = match run_statements dir before d with
    | (d0, Return _) => run_statements dir after d0
    | (d0, Raise error) => (d0, Raise error)
    end.
Proof.
  unfold run_statements. rewrite NewPostsMore.for_each_app_run.
  by destruct (for_each _ before () d) as [d0 [[]|error]].
Qed.

Lemma run_statements_cons dir query_name params after (d : SqliteDriver Conn) :
  run_statements dir ((query_name, params) :: after) d
  = match execute_named dir query_name params d with
    | (d0, Return _) => run_statements dir after d0
    | (d0, Raise error) => (d0, Raise error)
    end.
Proof.
  unfold run_statements. cbn [for_each]. rewrite !step.
  by destruct (execute_named dir query_name params d) as [d0 [rows|error]].
Qed.

Lemma statements_only_run_statements dir statements :
  statements_only (Conn:=Conn) (run_statements dir statements).
Proof.
  unfold run_statements. apply statements_only_for_each.
  intros _ [query_name params].
  apply statements_only_bind; [apply statements_only_execute_named|].
  intros _. apply statements_only_ret.
Qed.

(** The loop over the aliases of one site runs its statements. *)
Lemma add_wiki_aliases_run dir wiki_id aliases (d : SqliteDriver Conn) :
  for_each (λ _ alt,
              execute_named dir "add_wiki_alias"
                (Some {[ "wiki_id" := SqlText wiki_id; "alias" := SqlText alt ]});;
              mret ())
           aliases () d
  = run_statements dir
      ((λ alt, ("add_wiki_alias",
                Some {[ "wiki_id" := SqlText wiki_id; "alias" := SqlText alt ]}))
       <$> aliases) d.
Proof.
  revert d. induction aliases as [|alt aliases IH]; intros d; [done|].
  rewrite fmap_cons, run_statements_cons. cbn [for_each]. rewrite !step.
  destruct (execute_named _ _ _ d) as [d0 [rows|error]]; [|done].
  cbn [mret M_ret]. apply IH.
Qed.

(** The loop over the sites runs their statements. *)
Lemma add_wikis_run dir sites (d : SqliteDriver Conn) :
  for_each (λ _ '(wiki_id, wiki),
              execute_named dir "add_wiki"
                (Some {[ "wiki_id" := SqlText wiki_id;
                         "wiki_secure" := SqlInt (secure wiki) ]});;
              for_each (λ _ alt,
                          execute_named dir "add_wiki_alias"
                            (Some {[ "wiki_id" := SqlText wiki_id;
                                     "alias" := SqlText alt ]});;
                          mret ())
                       (alts wiki) ())
           sites () d
  = run_statements dir (tail (site_statements sites)) d.
Proof.
  unfold site_statements. cbn [tail].
  revert d. induction sites as [|[wiki_id wiki] sites IH]; intros d; [done|].
  cbn [flat_map]. rewrite <- app_comm_cons, run_statements_cons.
  cbn [for_each]. rewrite !step.
  destruct (execute_named _ _ _ d) as [d0 [rows|error]]; [|done].
  rewrite add_wiki_aliases_run, run_statements_app.
  destruct (run_statements _ _ d0) as [d1 [[]|error]]; [apply IH|done].
Qed.

(** X20. [store_supported_site] commits once, last, and only if every
    statement went through. It runs its statements in order
    ([site_statements]); these never commit. If they all return, it then
    commits, which adds exactly one commit to the calls on the connection;
    if one of them raises, whether in the lookup of the query or in the
    connection, [store_supported_site] raises that error in the state the
    failure left: the later statements are not run and no commit is
    made. *)
Theorem store_supported_site_commit_last dir sites (d : SqliteDriver Conn) :
  let run := run_statements dir (site_statements sites) d in
  (∃ stmts, sql_calls run.1 = sql_calls d ++ stmts ∧ Commit ∉ stmts)
  ∧ store_supported_site dir sites d
    = match run.2 with
      | Return _ => conn_commit run.1
      | Raise error => (run.1, Raise error)
      end
  ∧ sql_calls (conn_commit run.1).1 = sql_calls run.1 ++ [Commit]
  ∧ ∀ before query_name params after d0 d1 error,
      site_statements sites = before ++ (query_name, params) :: after →
      run_statements dir before d = (d0, Return ()) →
      execute_named dir query_name params d0 = (d1, Raise error) →
      run = (d1, Raise error).
Proof.
  intros run. split_and!.
  - apply statements_only_run_statements.
  - unfold run, store_supported_site, site_statements.
    rewrite run_statements_cons, !step.
    destruct (execute_named dir "remove_all_wikis" None d) as [d0 [rows|error]];
      [|done].
    rewrite ?step, add_wikis_run. unfold site_statements. cbn [tail].
    by destruct (run_statements _ _ d0) as [d1 [[]|error]].
  - unfold conn_commit. by destruct (sqlite_commit (conn run.1)).
  - intros before query_name params after d0 d1 error Hsplit Hbefore Hfail.
    unfold run. by rewrite Hsplit, run_statements_app, Hbefore,
      run_statements_cons, Hfail.
Qed.

(** X21. Neither [get_new_posts_for_user] nor [store_manual_sub] commits:
    whatever happens, the calls they add to the connection are statements
    only. *)
Theorem reads_and_manual_sub_do_not_commit dir user_id search_timestamp
    subscription :
  statements_only (Conn:=Conn) (get_new_posts_for_user dir user_id search_timestamp)
  ∧ statements_only (Conn:=Conn) (store_manual_sub dir user_id subscription).
Proof.
  assert (Hrow : ∀ (row : Row) column,
            statements_only (Conn:=Conn) (row_getitem row column)).
  { intros row column. unfold row_getitem.
    destruct (row !! column); [apply statements_only_ret|apply statements_only_raise]. }
  split.
  - unfold get_new_posts_for_user.
    apply statements_only_bind; [apply statements_only_execute_named|]. intros ?.
    apply statements_only_bind; [apply statements_only_execute_named|]. intros ?.
    apply statements_only_bind.
    { apply statements_only_for_each. intros ??.
      apply statements_only_bind; [apply Hrow|]. intros ?. apply statements_only_ret. }
    intros ?. apply statements_only_bind.
    { apply statements_only_for_each. intros ??.
      apply statements_only_bind; [apply Hrow|]. intros ?. apply statements_only_ret. }
    intros ?. apply statements_only_ret.
  - unfold store_manual_sub.
    apply statements_only_bind; [apply statements_only_execute_named|]. intros ?.
    apply statements_only_ret.
Qed.
End driver_spec.
End SqliteSpec.

(** ** The remote configuration *)

Module RemoteSpec.
Import Remote.
Import CrawlSpec (bind_run).

(** *** Lines of a page *)

Lemma split_lines_blank raw_config :
  Forall (λ c, c = newline) (String.list_ascii_of_string raw_config) →
  Forall (λ line, line = EmptyString) (split_lines raw_config).
Proof.
  induction raw_config as [|c raw_config IH]; simpl; intros Hall.
  - by constructor.
  - apply Forall_cons in Hall as [-> Hall].
    rewrite bool_decide_eq_true_2 by done. constructor; [done|by apply IH].
Qed.

Lemma first_line_blank raw_config :
  Forall (λ c, c = newline) (String.list_ascii_of_string raw_config) →
  first_line raw_config = None.
Proof.
  intros Hall. unfold first_line.
  rewrite (proj2 (list_find_None _ _)); [done|].
  eapply Forall_impl; [by apply split_lines_blank|].
  intros line -> Hne. by apply Hne.
Qed.

(** *** Computations that write nothing *)

Section fetches_only.
Context {DB Item : Type}.
Implicit Types w : World DB Item.

Lemma fetches_only_nothing {A} (m : M (World DB Item) A) :
  (∀ w, (m w).1 = w) → fetches_only m.
Proof.
  intros Hm w. exists []. rewrite Hm, app_nil_r. by split.
Qed.

Lemma fetches_only_bind {A B} (m : M (World DB Item) A)
    (f : A → M (World DB Item) B) :
  fetches_only m → (∀ a, fetches_only (f a)) → fetches_only (m ≫= f).
Proof.
  intros Hm Hf w. rewrite bind_run. destruct (Hm w) as (n1 & H1 & Hn1).
  destruct (m w) as [w1 [a|e]]; simpl in H1; [|by exists n1].
  destruct (Hf a w1) as (n2 & H2 & Hn2). exists (n1 ++ n2).
  rewrite H2, H1, app_assoc. split; [done|by apply Forall_app].
Qed.

Lemma fetches_only_try_except {A} (body : M (World DB Item) A) catch handler :
  fetches_only body → (∀ e, fetches_only (handler e)) →
  fetches_only (try_except body catch handler).
Proof.
  intros Hm Hh w. unfold try_except. destruct (Hm w) as (n1 & H1 & Hn1).
  destruct (body w) as [w1 [a|e]]; simpl in H1; [by exists n1|].
  destruct (catch e); [|by exists n1].
  destruct (Hh e w1) as (n2 & H2 & Hn2). exists (n1 ++ n2).
  rewrite H2, H1, app_assoc. split; [done|by apply Forall_app].
Qed.

Lemma fetches_only_for_each {A B} (body : B → A → M (World DB Item) B) l :
  (∀ acc x, fetches_only (body acc x)) → ∀ acc, fetches_only (for_each body l acc).
Proof.
  intros Hbody. induction l as [|x l IH]; intros acc; cbn [for_each].
  - by apply fetches_only_nothing.
  - apply fetches_only_bind; [apply Hbody|]. intros ?. apply IH.
Qed.

Lemma fetches_only_emit (event : Event Item) :
  is_store event = false → fetches_only (emit (DB:=DB) event).
Proof. intros Hev w. exists [event]. split; [done|]. by constructor. Qed.

Lemma fetches_only_getitem {V} (d : gmap string V) key :
  fetches_only (getitem (S:=World DB Item) d key).
Proof.
  apply fetches_only_nothing. intros w. unfold getitem. by destruct (d !! key).
Qed.
End fetches_only.

Section remote_spec.
Context {DB Item : Type} `{TomlItem Item} `{EqDecision Item}.
Variable issubclass : string → string → bool.
Variable tomlkit_parse : string → Result (TomlDocument Item).
Variable requests_get : string → Result string.
Variable connection_listpages : string → string → string → list string * option PyExn.
Variable store_global_overrides : TomlDocument Item → DB → DB.
Variable store_supported_wikis : list (TomlDocument Item) → DB → DB.
Implicit Types w : World DB Item.

Lemma fetch_global_overrides_fetches_only local_config :
  fetches_only (DB:=DB)
    (fetch_global_overrides issubclass tomlkit_parse requests_get local_config).
Proof.
  unfold fetch_global_overrides.
  apply fetches_only_bind; [apply fetches_only_getitem|]. intros url.
  apply fetches_only_bind; [by apply fetches_only_emit|]. intros _.
  apply fetches_only_bind; [by apply fetches_only_nothing|]. intros raw_config.
  apply fetches_only_try_except; [by apply fetches_only_nothing|]. intros e.
  apply fetches_only_bind; [by apply fetches_only_emit|]. intros _.
  by apply fetches_only_nothing.
Qed.

Lemma parse_wiki_page_fetches_only configs raw_config :
  fetches_only (DB:=DB) (parse_wiki_page issubclass tomlkit_parse configs raw_config).
Proof.
  unfold parse_wiki_page. apply fetches_only_try_except.
  - apply fetches_only_bind; [by apply fetches_only_nothing|]. intros ?.
    by apply fetches_only_nothing.
  - intros e. apply fetches_only_bind.
    + apply fetches_only_nothing. intros w. unfold next_nonempty.
      by destruct (list_find _ _) as [[? ?]|].
    + intros line. apply fetches_only_bind; [by apply fetches_only_emit|].
      intros _. by apply fetches_only_nothing.
Qed.

Lemma fetch_supported_wikis_fetches_only local_config :
  fetches_only (DB:=DB)
    (fetch_supported_wikis issubclass tomlkit_parse connection_listpages local_config).
Proof.
  unfold fetch_supported_wikis.
  apply fetches_only_bind; [apply fetches_only_getitem|]. intros wiki.
  apply fetches_only_bind; [apply fetches_only_getitem|]. intros category.
  apply fetches_only_bind; [by apply fetches_only_emit|]. intros _.
  destruct (connection_listpages _ _ _) as [pages outcome].
  apply fetches_only_bind.
  - apply fetches_only_for_each. intros ??. apply parse_wiki_page_fetches_only.
  - intros configs. by destruct outcome; apply fetches_only_nothing.
Qed.

(** One page of the listing that is handled. *)
Lemma parse_wiki_page_run configs raw_config w :
  handled issubclass tomlkit_parse raw_config →
  parse_wiki_page issubclass tomlkit_parse configs raw_config w
  = (mkWorld (db w)
       (events w ++ option_list (page_log tomlkit_parse raw_config)),
     Return (configs ++ option_list (page_config tomlkit_parse raw_config))).
Proof.
  unfold handled, page_log, page_config, parse_wiki_page, try_except, first_line.
  rewrite bind_run. unfold lift_result at 1.
  destruct (parse_raw_wiki_config tomlkit_parse raw_config) as [config|e].
  - intros _. simpl. rewrite app_nil_r. by destruct w.
  - intros [-> [line Hline]]. rewrite bind_run. unfold next_nonempty.
    destruct (list_find _ _) as [[i line']|]; [|by inversion Hline].
    simpl in Hline. injection Hline as ->. simpl. by rewrite app_nil_r.
Qed.

(** The loop of [fetch_supported_wikis] over pages that are all handled. *)
Lemma parse_wiki_pages_run pages :
  Forall (handled issubclass tomlkit_parse) pages →
  ∀ configs w,
  for_each (parse_wiki_page issubclass tomlkit_parse) pages configs w
  = (mkWorld (db w) (events w ++ omap (page_log tomlkit_parse) pages),
     Return (configs ++ omap (page_config tomlkit_parse) pages)).
Proof.
  induction 1 as [|raw_config pages Hpage _ IH]; intros configs w.
  - simpl. rewrite !app_nil_r. by destruct w.
  - cbn [for_each]. rewrite bind_run, (parse_wiki_page_run _ _ _ Hpage), IH.
    cbn [db events omap list_omap].
    unfold page_log, page_config.
    destruct (parse_raw_wiki_config tomlkit_parse raw_config);
      simpl; by rewrite ?app_nil_r, <- ?app_assoc.
Qed.

(** A page that is blank and does not parse ends the loop. *)
Lemma parse_wiki_pages_blank good raw_config rest configs w :
  Forall (handled issubclass tomlkit_parse) good →
  blank_page issubclass tomlkit_parse raw_config →
  for_each (parse_wiki_page issubclass tomlkit_parse)
    (good ++ raw_config :: rest) configs w
  = (mkWorld (db w) (events w ++ omap (page_log tomlkit_parse) good),
     Raise StopIteration).
Proof.
  intros Hgood [(e & Hparse & Hcaught) Hblank].
  rewrite NewPostsMore.for_each_app_run, (parse_wiki_pages_run _ Hgood).
  cbn [for_each]. rewrite bind_run.
  unfold parse_wiki_page, try_except. rewrite bind_run. unfold lift_result at 1.
  rewrite Hparse, Hcaught, bind_run. unfold next_nonempty.
  pose proof (first_line_blank _ Hblank) as Hline. unfold first_line in Hline.
  by destruct (list_find _ _) as [[i line]|].
Qed.

(** [fetch_supported_wikis] up to the loop. *)
Lemma fetch_supported_wikis_listing local_config config_wiki category pages outcome w :
  local_config !! "config_wiki" = Some config_wiki →
  local_config !! "wiki_config_category" = Some category →
  connection_listpages config_wiki category wiki_config_listpages_body
    = (pages, outcome) →
  fetch_supported_wikis issubclass tomlkit_parse connection_listpages local_config w
  = match for_each (parse_wiki_page issubclass tomlkit_parse) pages []
            (mkWorld (db w)
               (events w ++ [ConnectionListpages config_wiki category
                               wiki_config_listpages_body])) with
    | (w', Return configs) =>
        match outcome with
        | Some error => (w', Raise error)
        | None => (w', Return configs)
        end
    | (w', Raise error) => (w', Raise error)
    end.
Proof.
  intros Hwiki Hcategory Hlist. unfold fetch_supported_wikis.
  rewrite bind_run. unfold getitem at 1. rewrite Hwiki. cbn [mret M_ret].
  rewrite bind_run. unfold getitem at 1. rewrite Hcategory. cbn [mret M_ret].
  rewrite bind_run. unfold emit at 1, modify at 1. rewrite Hlist, bind_run.
  destruct (for_each _ _ _ _) as [w' [configs|error]]; [|done].
  by destruct outcome.
Qed.

(** X22. [fetch_supported_wikis] keeps what parses and reports the rest:
    when the listing ends normally and every page that fails does so with
    [TOMLKitError] or [AssertionError] and has a non-empty line, the result
    is the configs of the pages that parse, in listing order, and one error
    is logged for each other page, with its text and first non-empty line,
    after the one call of [listpages]. *)
Theorem fetch_supported_wikis_keeps_parsed local_config config_wiki category pages w :
  local_config !! "config_wiki" = Some config_wiki →
  local_config !! "wiki_config_category" = Some category →
  connection_listpages config_wiki category wiki_config_listpages_body
    = (pages, None) →
  Forall (handled issubclass tomlkit_parse) pages →
  fetch_supported_wikis issubclass tomlkit_parse connection_listpages local_config w
  = (mkWorld (db w)
       (events w
        ++ ConnectionListpages config_wiki category wiki_config_listpages_body
        :: omap (page_log tomlkit_parse) pages),
     Return (omap (page_config tomlkit_parse) pages)).
Proof.
  intros Hwiki Hcategory Hlist Hpages.
  rewrite (fetch_supported_wikis_listing _ _ _ _ _ _ Hwiki Hcategory Hlist).
  rewrite (parse_wiki_pages_run _ Hpages). simpl. by rewrite <- app_assoc.
Qed.

(** X23. A blank page that does not parse takes the whole listing down:
    building the error record asks for the first non-empty line of the
    page, there is none, and [fetch_supported_wikis] raises
    [StopIteration]; the configs read so far are lost, the pages after it
    are not read, and no error is logged for the blank page. *)
Theorem fetch_supported_wikis_blank_page local_config config_wiki category
    good raw_config rest outcome w :
  local_config !! "config_wiki" = Some config_wiki →
  local_config !! "wiki_config_category" = Some category →
  connection_listpages config_wiki category wiki_config_listpages_body
    = (good ++ raw_config :: rest, outcome) →
  Forall (handled issubclass tomlkit_parse) good →
  blank_page issubclass tomlkit_parse raw_config →
  fetch_supported_wikis issubclass tomlkit_parse connection_listpages local_config w
  = (mkWorld (db w)
       (events w
        ++ ConnectionListpages config_wiki category wiki_config_listpages_body
        :: omap (page_log tomlkit_parse) good),
     Raise StopIteration).
Proof.
  intros Hwiki Hcategory Hlist Hgood Hblank.
  rewrite (fetch_supported_wikis_listing _ _ _ _ _ _ Hwiki Hcategory Hlist).
  rewrite (parse_wiki_pages_blank _ _ _ _ _ Hgood Hblank). simpl.
  by rewrite <- app_assoc.
Qed.

(** What [try_cache] adds to the events, for a getter that writes
    nothing: the getter's events, then at most one store, of a value that
    is not the one excluded. *)
Lemma try_cache_events {V} `{EqDecision V} (get : M (World DB Item) V)
    (store : V → DB → DB) (event : V → Event Item) do_not_store w :
  fetches_only get →
  ∃ new,
    Forall (λ event, is_store event = false) new
    ∧ (events (Driver.try_cache issubclass get
                 (λ v, modify (λ w, mkWorld (store v (db w)) (events w ++ [event v])))
                 do_not_store None w).1 = events w ++ new
       ∨ ∃ value, value ≠ do_not_store
                  ∧ events (Driver.try_cache issubclass get
                              (λ v, modify (λ w, mkWorld (store v (db w))
                                                         (events w ++ [event v])))
                              do_not_store None w).1
                    = events w ++ new ++ [event value]).
Proof.
  intros Hget. destruct (Hget w) as (new & Hnew & Hfetch). exists new.
  split; [done|]. unfold Driver.try_cache. rewrite bind_run. unfold try_except.
  destruct (get w) as [w1 [value|e]]; simpl in Hnew.
  - case_bool_decide as Hv.
    + right. exists value. split; [done|]. simpl. by rewrite Hnew, app_assoc.
    + left. done.
  - destruct (Driver.isinstance _ _ _); simpl.
    + rewrite bool_decide_eq_false_2 by (intros Hne; by apply Hne). by left.
    + by left.
Qed.

(** X24. [get_global_config] never writes an empty value: whatever the
    remote and the parser do, the events it adds hold no
    [store_global_overrides] of an empty dict and no
    [store_supported_wikis] of an empty list, so an emptied overrides page
    or an emptied wiki listing leaves the stored values as they were. *)
Theorem get_global_config_never_stores_empty local_config w :
  ∃ new,
    events (get_global_config issubclass tomlkit_parse requests_get
              connection_listpages store_global_overrides store_supported_wikis
              local_config w).1 = events w ++ new
    ∧ (StoreGlobalOverrides [] ∉ new)
    ∧ (StoreSupportedWikis [] ∉ new).
Proof.
  unfold get_global_config. rewrite bind_run.
  unfold database_store_global_overrides, database_store_supported_wikis.
  destruct (try_cache_events
              (fetch_global_overrides issubclass tomlkit_parse requests_get
                 local_config)
              store_global_overrides StoreGlobalOverrides [] w
              (fetch_global_overrides_fetches_only local_config))
    as (n1 & Hn1 & H1).
  assert (Hquiet : ∀ (new : list (Event Item)) event,
            Forall (λ event, is_store event = false) new →
            is_store event = true → event ∉ new).
  { intros new event Hall Hstore Hin. rewrite Forall_forall in Hall.
    apply Hall in Hin. congruence. }
  destruct (Driver.try_cache issubclass (fetch_global_overrides _ _ _ _) _ _ _ w)
    as [w1 [[]|e]]; simpl in H1.
  - destruct (try_cache_events
                (fetch_supported_wikis issubclass tomlkit_parse
                   connection_listpages local_config)
                store_supported_wikis StoreSupportedWikis [] w1
                (fetch_supported_wikis_fetches_only local_config))
      as (n2 & Hn2 & H2).
    destruct (Driver.try_cache issubclass (fetch_supported_wikis _ _ _ _) _ _ _ w1)
      as [w2 r2]; simpl in H2 |- *.
    destruct H1 as [H1|(v1 & Hv1 & H1)], H2 as [H2|(v2 & Hv2 & H2)];
      rewrite H2, H1, <- ?app_assoc; eexists; (split; [done|]);
      rewrite ?not_elem_of_app, ?not_elem_of_cons;
      repeat split; try (by apply Hquiet); try apply not_elem_of_nil;
      try congruence.
  - cbn [fst]. destruct H1 as [H1|(v1 & Hv1 & H1)]; rewrite H1; eexists;
      (split; [done|]);
      rewrite ?not_elem_of_app, ?not_elem_of_cons;
      repeat split; try (by apply Hquiet); try apply not_elem_of_nil;
      try congruence.
Qed.

(** X25. One blank page silently keeps the wiki list from being
    refreshed: when the overrides step does not fail with an error outside
    [Exception], and the listing holds a blank page that does not parse
    after pages that are handled, [get_global_config] returns normally and
    [store_supported_wikis] is not called, although other pages parsed. *)
Theorem get_global_config_blank_page local_config config_wiki category
    good raw_config rest outcome w :
  (∀ error,
     (fetch_global_overrides issubclass tomlkit_parse requests_get
        local_config w).2 = Raise error →
     Driver.caught issubclass None error = true) →
  issubclass "StopIteration" "Exception" = true →
  local_config !! "config_wiki" = Some config_wiki →
  local_config !! "wiki_config_category" = Some category →
  connection_listpages config_wiki category wiki_config_listpages_body
    = (good ++ raw_config :: rest, outcome) →
  Forall (handled issubclass tomlkit_parse) good →
  blank_page issubclass tomlkit_parse raw_config →
  (get_global_config issubclass tomlkit_parse requests_get connection_listpages
     store_global_overrides store_supported_wikis local_config w).2 = Return ()
  ∧ stored_wikis
      (events (get_global_config issubclass tomlkit_parse requests_get
                 connection_listpages store_global_overrides
                 store_supported_wikis local_config w).1)
    = stored_wikis (events w).
Proof.
  intros Hfirst Hstop Hwiki Hcategory Hlist Hgood Hblank.
  unfold get_global_config. rewrite bind_run.
  assert (Hquiet : ∀ new : list (Event Item),
            Forall (λ event, is_store event = false) new → stored_wikis new = []).
  { induction 1 as [|event new Hev _ IH]; [done|].
    unfold stored_wikis in *. cbn [omap list_omap]. by destruct event. }
  assert (H1 : ∃ w1,
            Driver.try_cache issubclass
              (fetch_global_overrides issubclass tomlkit_parse requests_get
                 local_config)
              (database_store_global_overrides store_global_overrides) [] None w
            = (w1, Return ())
            ∧ stored_wikis (events w1) = stored_wikis (events w)).
  { destruct (fetch_global_overrides_fetches_only local_config w)
      as (new & Hnew & Hall).
    unfold Driver.try_cache. rewrite bind_run. unfold try_except.
    unfold Driver.caught in Hfirst. simpl in Hfirst.
    destruct (fetch_global_overrides _ _ _ _ w) as [w1 [value|e]];
      simpl in Hnew, Hfirst.
    - case_bool_decide.
      + eexists. split; [done|]. simpl. rewrite Hnew.
        unfold stored_wikis. rewrite !omap_app. fold (stored_wikis new).
        rewrite (Hquiet _ Hall). simpl. by rewrite !app_nil_r.
      + exists w1. split; [done|]. rewrite Hnew.
        unfold stored_wikis. rewrite omap_app. fold (stored_wikis new).
        by rewrite (Hquiet _ Hall), app_nil_r.
    - simpl. rewrite (Hfirst e eq_refl). simpl.
      rewrite ?bool_decide_eq_false_2 by (intros Hne; by apply Hne).
      exists w1. split; [done|]. rewrite Hnew.
      unfold stored_wikis. rewrite omap_app. fold (stored_wikis new).
      by rewrite (Hquiet _ Hall), app_nil_r. }
  destruct H1 as (w1 & -> & Hw1).
  unfold Driver.try_cache. rewrite bind_run. unfold try_except.
  assert (Hrun : fetch_supported_wikis issubclass tomlkit_parse
                   connection_listpages local_config w1
                 = (mkWorld (db w1)
                      (events w1
                       ++ ConnectionListpages config_wiki category
                            wiki_config_listpages_body
                       :: omap (page_log tomlkit_parse) good),
                    Raise StopIteration)).
  { rewrite (fetch_supported_wikis_listing _ _ _ _ _ _ Hwiki Hcategory Hlist).
    rewrite (parse_wiki_pages_blank _ _ _ _ _ Hgood Hblank). simpl.
    by rewrite <- app_assoc. }
  destruct (fetch_supported_wikis_fetches_only local_config w1)
    as (new & Hnew & Hall).
  rewrite Hrun in Hnew |- *. simpl in Hnew.
  unfold Driver.isinstance, Driver.Exception. simpl. rewrite Hstop. simpl.
  rewrite ?bool_decide_eq_false_2 by (intros Hne; by apply Hne).
  split; [done|]. simpl. rewrite Hnew.
  unfold stored_wikis. rewrite omap_app. fold (stored_wikis new).
  fold (stored_wikis (events w1)). by rewrite (Hquiet _ Hall), app_nil_r.
Qed.
End remote_spec.
End RemoteSpec.

(** ** The properties at concrete inputs *)

Module NewPostsExamples.
Import NewPosts Fixtures MoreFixtures NewPostsMore.

(** X1 at a feed of two entries. *)
Lemma fetch_new_posts_rss_returns_witness :
  fetch_new_posts_rss all_exceptions feed_two parse_two "aa" (empty_world no_records)
  = (mkWorld no_records
       [FeedparserParse "http://aa.wikidot.com/feed/forum/posts.xml"] [],
     Return [("T1", "P1"); ("T2", "P3")]).
Proof.
  rewrite (fetch_new_posts_rss_returns (DB:=MemDB) all_exceptions feed_two
             parse_two "aa" (empty_world no_records)
             {[ "entries" := [entry "T1" "P1"; entry "T2" "P3"] ]}
             [entry "T1" "P1"; entry "T2" "P3"] [("T1", "P1"); ("T2", "P3")]).
  - vm_compute. reflexivity.
  - reflexivity.
  - vm_compute. reflexivity.
  - constructor; [exists "T1/P1"; split; vm_compute; reflexivity|].
    constructor; [exists "T2/P3"; split; vm_compute; reflexivity|].
    constructor.
Defined.

(** X2 at a feed whose second entry has no id. *)
Lemma fetch_new_posts_rss_bad_entry_witness :
  fetch_new_posts_rss all_exceptions feed_bad parse_two "aa" (empty_world no_records)
  = (mkWorld no_records
       [FeedparserParse "http://aa.wikidot.com/feed/forum/posts.xml"] [],
     Raise (KeyError "id")).
Proof.
  rewrite (fetch_new_posts_rss_bad_entry (DB:=MemDB) all_exceptions feed_bad
             parse_two "aa" (empty_world no_records)
             {[ "entries" := [entry "T1" "P1"; ∅; entry "T2" "P3"] ]}
             [entry "T1" "P1"] [("T1", "P1")] ∅ [entry "T2" "P3"] (KeyError "id")).
  - vm_compute. reflexivity.
  - reflexivity.
  - vm_compute. reflexivity.
  - constructor; [exists "T1/P1"; split; vm_compute; reflexivity|]. constructor.
  - left. split; vm_compute; reflexivity.
Defined.

(** X3 at a retrieval interrupted from the keyboard. *)
Lemma fetch_new_posts_rss_not_caught_witness :
  fetch_new_posts_rss builtin_exceptions feed_interrupted parse_two "aa"
    (empty_world no_records)
  = (mkWorld no_records
       [FeedparserParse "http://aa.wikidot.com/feed/forum/posts.xml"] [],
     Raise keyboard_interrupt).
Proof.
  rewrite (fetch_new_posts_rss_not_caught (DB:=MemDB) builtin_exceptions
             feed_interrupted parse_two "aa" (empty_world no_records)
             keyboard_interrupt).
  - vm_compute. reflexivity.
  - reflexivity.
  - vm_compute. reflexivity.
Defined.

(** X4 at the page of a post that has been seen. *)
Lemma download_page_skipped_witness :
  download_page remote_ok "aa" (mkSeen ["P1"] []) ("T2", Some "P1")
    (empty_world no_records)
  = (mkWorld no_records [] [(DEBUG, "Skipping download of post %s")],
     Return (mkSeen ["P1"] [])).
Proof.
  rewrite (download_page_skipped (DB:=MemDB) remote_ok "aa" (mkSeen ["P1"] [])
             ("T2", Some "P1") (empty_world no_records)).
  - vm_compute. reflexivity.
  - vm_compute. reflexivity.
Defined.

(** X7 at the full crawl of thread T1. *)
Lemma download_pages_seen_grows_witness :
  let seen := mkSeen ["P0"] [] in
  let seen' := mkSeen ["P0"; "P1"] ["T1"] in
  (download_pages remote_ok "aa" [("T1", None)] seen (empty_world no_records)).2
    = Return seen'
  ∧ posts_already_seen seen `prefix_of` posts_already_seen seen'
  ∧ full_threads_already_seen seen `prefix_of` full_threads_already_seen seen'.
Proof.
  split; [vm_compute; reflexivity|].
  apply (download_pages_seen_grows (DB:=MemDB) remote_ok "aa" [("T1", None)]
           (mkSeen ["P0"] []) (empty_world no_records)
           (download_pages remote_ok "aa" [("T1", None)] (mkSeen ["P0"] [])
              (empty_world no_records)).1).
  vm_compute. reflexivity.
Defined.

(** X8 at a stream that starts with a post. *)
Lemma download_page_bad_thread_meta_witness :
  ∃ key,
    post "P1" !! key = None
    ∧ download_page remote_no_meta "aa" (mkSeen [] []) ("T1", None)
        (empty_world no_records)
      = (mkWorld no_records [ConnectionThread "aa" "T1" None]
           [(DEBUG, "Downloading thread %s");
            (DEBUG, "Storing metadata for thread %s")],
         Raise (KeyError key)).
Proof.
  destruct (download_page_bad_thread_meta (DB:=MemDB) remote_no_meta "aa"
              (mkSeen [] []) "T1" None (post "P1") [] None
              (empty_world no_records)) as (key & Hkey & Hrun).
  - vm_compute. reflexivity.
  - reflexivity.
  - vm_compute. reflexivity.
  - exists key. split; [exact Hkey|]. rewrite Hrun. vm_compute. reflexivity.
Defined.

(** X9 at a stream whose second post has no id. *)
Lemma download_page_post_without_id_witness :
  download_page remote_post_without_id "aa" (mkSeen [] []) ("T1", None)
    (empty_world no_records)
  = (mkWorld (mkMemDB [] ["P1"] ["T1"])
       [ConnectionThread "aa" "T1" None;
        StoreThread "aa" ("c-1", "General") ("T1", "Hello", "alice", "1600000000");
        StorePost (post "P1");
        StorePost {[ "content" := "text" ]}]
       [(DEBUG, "Downloading thread %s");
        (DEBUG, "Storing metadata for thread %s")],
     Raise (KeyError "id")).
Proof.
  rewrite (download_page_post_without_id (DB:=MemDB) remote_post_without_id "aa"
             (mkSeen [] []) "T1" None thread_meta [post "P1"]
             {[ "content" := "text" ]} [post "P2"] None (empty_world no_records)).
  - vm_compute. reflexivity.
  - vm_compute. reflexivity.
  - reflexivity.
  - vm_compute. reflexivity.
  - vm_compute. reflexivity.
Defined.

(** X10 at an empty feed, with a database that has records. *)
Lemma fetch_posts_with_context_empty_feed_witness :
  fetch_posts_with_context all_exceptions feed_empty parse_two remote_ok "aa"
    (empty_world two_wikis)
  = (mkWorld two_wikis
       [FeedparserParse "http://aa.wikidot.com/feed/forum/posts.xml"]
       [(DEBUG, "Found new posts in RSS %s");
        (DEBUG, "Found new threads to download %s")],
     Return ()).
Proof.
  rewrite (fetch_posts_with_context_empty_feed (DB:=MemDB) all_exceptions
             feed_empty parse_two remote_ok "aa" (empty_world two_wikis)
             {[ "entries" := [] ]}).
  - vm_compute. reflexivity.
  - reflexivity.
  - vm_compute. reflexivity.
Defined.

(** X12 at thread [t-123]. *)
Lemma fetch_post_context_thread_number_witness :
  fetch_post_context paginated_module_log "aa" ("t-" +:+ "123") []
  = (["123"], Return ()).
Proof.
  rewrite (fetch_post_context_thread_number paginated_module_log "aa" "123").
  - vm_compute. reflexivity.
  - apply (bool_decide_unpack _). vm_compute. exact I.
Defined.
End NewPostsExamples.

Module SqliteExamples.
Import Sqlite SqliteFixtures SqliteSpec.

(** X13 at a query that has no file. *)
Lemma execute_named_unknown_query_witness :
  execute_named queries_dir "drop_tables" None fresh_driver
  = (fresh_driver, Raise (ValueError "Query drop_tables does not exist")).
Proof.
  rewrite (execute_named_unknown_query (Conn:=MemConn) queries_dir "drop_tables"
             None fresh_driver).
  - vm_compute. reflexivity.
  - vm_compute. reflexivity.
  - repeat (constructor; [vm_compute; discriminate|]). constructor.
Defined.

(** X14 at the name of a file, extension included. *)
Lemma execute_named_dotted_name_witness :
  execute_named queries_dir "create_tables.script" None fresh_driver
  = (fresh_driver, Raise (ValueError "Query create_tables.script does not exist")).
Proof.
  rewrite (execute_named_dotted_name (Conn:=MemConn) queries_dir
             "create_tables.script" None fresh_driver).
  - vm_compute. reflexivity.
  - apply (bool_decide_unpack _). vm_compute. exact I.
  - vm_compute. reflexivity.
Defined.

(** X15 at a cached query, with the directory emptied. *)
Lemma execute_named_cached_witness :
  execute_named queries_dir "get_posts_in_subscribed_threads" None warm_driver
  = execute_named [] "get_posts_in_subscribed_threads" None warm_driver
  ∧ query_cache
      (execute_named queries_dir "get_posts_in_subscribed_threads" None
         warm_driver).1
    = query_cache warm_driver.
Proof.
  apply (execute_named_cached (Conn:=MemConn) queries_dir []
           "get_posts_in_subscribed_threads" None warm_driver).
  exists (mkQuery false "SELECT posts"). vm_compute. reflexivity.
Defined.

(** X16 at the first use of a query whose file is the second of the
    directory. *)
Lemma execute_named_loads_first_witness :
  let entry := mkQuery false "SELECT posts" in
  let loaded :=
    mkDriver mem_conn {[ "get_posts_in_subscribed_threads" := entry ]} [] in
  execute_named queries_dir "get_posts_in_subscribed_threads" (Some user_params)
    fresh_driver
  = execute_named queries_dir "get_posts_in_subscribed_threads" (Some user_params)
      loaded
  ∧ query_cache
      (execute_named queries_dir "get_posts_in_subscribed_threads"
         (Some user_params) fresh_driver).1
    = {[ "get_posts_in_subscribed_threads" := entry ]}.
Proof.
  destruct (execute_named_loads_first (Conn:=MemConn) queries_dir
              [("README.md", "The queries of the driver")]
              "get_posts_in_subscribed_threads.sql" "SELECT posts"
              [("get_replies_to_subscribed_posts.sql", "SELECT replies");
               ("create_tables.script.sql", "CREATE TABLE post")]
              "get_posts_in_subscribed_threads" (Some user_params) fresh_driver)
    as [Hrun Hcache].
  - vm_compute. reflexivity.
  - reflexivity.
  - constructor; [vm_compute; discriminate|]. constructor.
  - vm_compute. reflexivity.
  - split; [rewrite Hrun|rewrite Hcache]; vm_compute; reflexivity.
Defined.

(** X17 at the cached script. *)
Lemma execute_named_script_params_witness :
  execute_named queries_dir "create_tables" (Some user_params) warm_driver
  = (warm_driver, Raise (ValueError "Script does not accept params")).
Proof.
  apply (execute_named_script_params (Conn:=MemConn) queries_dir "create_tables"
           user_params warm_driver "CREATE TABLE post").
  vm_compute. reflexivity.
Defined.

(** X18 at the query [create_tables]. *)
Lemma query_file_kind_witness :
  before_dot ("create_tables" +:+ ".script.sql") = "create_tables"
  ∧ endswith ("create_tables" +:+ ".script.sql") ".script.sql" = true
  ∧ before_dot ("create_tables" +:+ ".sql") = "create_tables"
  ∧ endswith ("create_tables" +:+ ".sql") ".script.sql" = false.
Proof.
  apply (query_file_kind "create_tables").
  apply (bool_decide_unpack _). vm_compute. exact I.
Defined.

(** X19 at a user with three posts in subscribed threads, one of which is
    also a reply to a subscribed post. *)
Lemma get_new_posts_for_user_no_duplicates_witness :
  (get_new_posts_for_user queries_dir "u1" 0 fresh_driver).2
  = Return ([post_row 1; post_row 3], [post_row 2]).
Proof.
  destruct (get_new_posts_for_user_no_duplicates (Conn:=MemConn) queries_dir "u1" 0
              fresh_driver
              (execute_named queries_dir "get_posts_in_subscribed_threads"
                 (Some user_params) fresh_driver).1
              (execute_named queries_dir "get_replies_to_subscribed_posts"
                 (Some user_params)
                 (execute_named queries_dir "get_posts_in_subscribed_threads"
                    (Some user_params) fresh_driver).1).1
              [post_row 1; post_row 2; post_row 3] [post_row 2])
    as (thread_posts & Hrun & Hposts & _).
  - vm_compute. reflexivity.
  - vm_compute. reflexivity.
  - repeat (constructor; [eexists; vm_compute; reflexivity|]). constructor.
  - repeat (constructor; [eexists; vm_compute; reflexivity|]). constructor.
  - rewrite Hrun, Hposts. vm_compute. reflexivity.
Defined.
End SqliteExamples.

Module RemoteExamples.
Import Remote Fixtures RemoteFixtures RemoteSpec.

Lemma page_ok_handled : handled all_exceptions toml_fixture page_ok.
Proof. vm_compute. exact I. Qed.

Lemma nonsense_handled : handled all_exceptions toml_fixture "nonsense".
Proof. vm_compute. split; [reflexivity|by eexists]. Qed.

Lemma line_break_blank_page :
  blank_page all_exceptions toml_fixture (String newline "").
Proof.
  split.
  - exists AssertionError. split; vm_compute; reflexivity.
  - repeat constructor.
Qed.

(** X22 at a listing of three pages, the second of which is no TOML. *)
Lemma fetch_supported_wikis_keeps_parsed_witness :
  fetch_supported_wikis all_exceptions toml_fixture listing_ok remote_config
    fresh_world
  = (mkWorld 0
       [ConnectionListpages "cfg" "wikis" wiki_config_listpages_body;
        LoggerError "Could not parse wiki config %s"
          [("raw_config", "nonsense"); ("first_line", "nonsense")]
          (mkExn "TOMLKitError" "")],
     Return [[("id", 7%Z); ("secure", 1%Z)]; [("id", 7%Z); ("secure", 1%Z)]]).
Proof.
  rewrite (fetch_supported_wikis_keeps_parsed (DB:=nat) all_exceptions toml_fixture
             listing_ok remote_config "cfg" "wikis"
             [page_ok; "nonsense"; page_ok] fresh_world).
  - vm_compute. reflexivity.
  - vm_compute. reflexivity.
  - vm_compute. reflexivity.
  - reflexivity.
  - constructor; [apply page_ok_handled|].
    constructor; [apply nonsense_handled|].
    constructor; [apply page_ok_handled|]. constructor.
Defined.

(** X23 at a listing whose second page is a line break. *)
Lemma fetch_supported_wikis_blank_page_witness :
  fetch_supported_wikis all_exceptions toml_fixture listing_blank remote_config
    fresh_world
  = (mkWorld 0 [ConnectionListpages "cfg" "wikis" wiki_config_listpages_body],
     Raise StopIteration).
Proof.
  rewrite (fetch_supported_wikis_blank_page (DB:=nat) all_exceptions toml_fixture
             listing_blank remote_config "cfg" "wikis"
             [page_ok] (String newline "") [page_ok] None fresh_world).
  - vm_compute. reflexivity.
  - vm_compute. reflexivity.
  - vm_compute. reflexivity.
  - reflexivity.
  - constructor; [apply page_ok_handled|]. constructor.
  - apply line_break_blank_page.
Defined.

(** X25 at the same listing: the pass returns and writes nothing. *)
Lemma get_global_config_blank_page_witness :
  let run := get_global_config all_exceptions toml_fixture requests_fixture
               listing_blank count_store count_store remote_config fresh_world in
  run.2 = Return () ∧ stored_wikis (events run.1) = [] ∧ db run.1 = 0.
Proof.
  destruct (get_global_config_blank_page (DB:=nat) all_exceptions toml_fixture
              requests_fixture listing_blank count_store count_store
              remote_config "cfg" "wikis" [page_ok] (String newline "") [page_ok]
              None fresh_world) as [Hreturn Hstored].
  - intros error. vm_compute. discriminate.
  - vm_compute. reflexivity.
  - vm_compute. reflexivity.
  - vm_compute. reflexivity.
  - reflexivity.
  - constructor; [apply page_ok_handled|]. constructor.
  - apply line_break_blank_page.
  - cbv zeta. split; [exact Hreturn|]. split; [rewrite Hstored|];
      vm_compute; reflexivity.
Defined.
End RemoteExamples.
